(** * Session coordinator of the anonymous chat server

    A shallow embedding of the socket.io server found at the end of
    [src/app/App.tsx]: the waiting queue, the room registry
    ([activeRooms]), the per-connection message rate limiter, the
    public-key table and the event handlers registered on every socket.

    JavaScript strings are sequences of UTF-16 code units, written here as
    [list N]; JavaScript [Map]s whose iteration order is read by the code
    are association lists in insertion order, the others are [gmap]s. *)

From Stdlib Require Import ZArith NArith Lia.
From Stdlib Require Import Ascii String.
From stdpp Require Import base option list gmap.

Set Default Proof Using "Type".
Set Warnings "-register-all,-clear-no-such-hyp".
Open Scope Z_scope.

(** ** JavaScript values *)

Abbreviation jsstr := (list N).

(** A literal of the source, as code units. *)
Definition js (s : string) : jsstr :=
  List.map N_of_ascii (list_ascii_of_string s).

(** The values a client can put in a payload field.  [JNum] holds the
    integer-valued numbers (ids and timestamps), [JObj] any object that is
    not an array. *)
Inductive JsVal : Type :=
  | JUndefined
  | JNull
  | JBool (b : bool)
  | JNum (z : Z)
  | JNaN
  | JStr (s : jsstr)
  | JArr (l : list JsVal)
  | JObj.

(** [ToBoolean]: what [if (v)], [!v] and [v || w] test. *)
Definition truthy (v : JsVal) : bool :=
  match v with
  | JUndefined | JNull | JNaN => false
  | JBool b => b
  | JNum z => negb (z =? 0)
  | JStr s => match s with [] => false | _ => true end
  | JArr _ | JObj => true
  end.

Definition is_string (v : JsVal) : bool :=
  match v with JStr _ => true | _ => false end.

(** [a || b] *)
Definition js_or (a b : JsVal) : JsVal := if truthy a then a else b.

(** [a || b] on two strings: the empty string is the only falsy one. *)
Definition js_or_str (a b : jsstr) : jsstr :=
  if truthy (JStr a) then a else b.

(** ** String helpers used by [sanitizeUsername] *)

(** White space and line terminators removed by [String.prototype.trim]. *)
Definition is_js_space (c : N) : bool :=
  ((9 <=? c) && (c <=? 13) || (c =? 32) || (c =? 160) || (c =? 5760)
   || ((8192 <=? c) && (c <=? 8202)) || (c =? 8232) || (c =? 8233)
   || (c =? 8239) || (c =? 8287) || (c =? 12288) || (c =? 65279))%N.

Fixpoint trimStart (s : jsstr) : jsstr :=
  match s with
  | c :: s' => if is_js_space c then trimStart s' else s
  | [] => []
  end.

Definition trimEnd (s : jsstr) : jsstr := rev (trimStart (rev s)).

Definition trim (s : jsstr) : jsstr := trimEnd (trimStart s).

(** [s.replace(/c/g, rep)] for a one-character pattern. *)
Fixpoint replaceAll (c : N) (rep : jsstr) (s : jsstr) : jsstr :=
  match s with
  | [] => []
  | x :: s' => (if (x =? c)%N then rep else [x]) ++ replaceAll c rep s'
  end.

(** [validator.escape] of the validator package: eight global replacements,
    applied in this order. *)
Definition escape (str : jsstr) : jsstr :=
  replaceAll 96 (js "&#96;")
    (replaceAll 92 (js "&#x5C;")
      (replaceAll 47 (js "&#x2F;")
        (replaceAll 62 (js "&gt;")
          (replaceAll 60 (js "&lt;")
            (replaceAll 39 (js "&#x27;")
              (replaceAll 34 (js "&quot;")
                (replaceAll 38 (js "&amp;") str))))))).

(** [s.substring(0, n)] *)
Definition substring0 (n : nat) (s : jsstr) : jsstr := take n s.

Definition Anonymous : jsstr := js "Anonymous".

(** [function sanitizeUsername(username)] *)
Definition sanitizeUsername (username : JsVal) : jsstr :=
  if negb (truthy username) || negb (is_string username) then Anonymous
  else
    match username with
    | JStr s =>
        let sanitized := escape (trim s) in
        js_or_str (substring0 50 sanitized) Anonymous
    | _ => Anonymous
    end.

(** ** Rate limiter *)

Definition MESSAGE_RATE_LIMIT : Z := 10.
Definition RATE_WINDOW : Z := 1000.

Record RateRecord : Type := mkRate { count : Z; resetTime : Z }.

(** [function checkMessageRateLimit(socketId)]; [now] is [Date.now()].
    The result is the returned boolean and the table after the call. *)
Definition checkMessageRateLimit (now : Z) (socketId : jsstr)
    (messageCounts : gmap jsstr RateRecord) : bool * gmap jsstr RateRecord :=
  match messageCounts !! socketId with
  | None =>
      (true, <[socketId := mkRate 1 (now + RATE_WINDOW)]> messageCounts)
  | Some record =>
      if now >? resetTime record then
        (true, <[socketId := mkRate 1 (now + RATE_WINDOW)]> messageCounts)
      else if count record >=? MESSAGE_RATE_LIMIT then
        (false, messageCounts)
      else
        (true, <[socketId := mkRate (count record + 1) (resetTime record)]>
                 messageCounts)
  end.


(** ** JavaScript [Map] with its insertion order

    [activeRooms] is scanned with [Array.from(activeRooms.entries()).find],
    which reads the entries in insertion order. *)

Section JSMap.
Context {V : Type}.

Definition mget (k : jsstr) (m : list (jsstr * V)) : option V :=
  snd <$> List.find (fun e => bool_decide (e.1 = k)) m.

Definition mhas (k : jsstr) (m : list (jsstr * V)) : bool :=
  match mget k m with Some _ => true | None => false end.

(** [m.set(k, v)]: an existing key keeps its place, a new one goes last. *)
Fixpoint mset (k : jsstr) (v : V) (m : list (jsstr * V)) : list (jsstr * V) :=
  match m with
  | [] => [(k, v)]
  | e :: m' => if bool_decide (e.1 = k) then (k, v) :: m' else e :: mset k v m'
  end.

Definition mdel (k : jsstr) (m : list (jsstr * V)) : list (jsstr * V) :=
  List.filter (fun e => negb (bool_decide (e.1 = k))) m.
End JSMap.

(** ** Events sent to clients *)

Record ReceivePayload : Type := mkReceive {
  rm_text : JsVal;
  rm_sender : JsVal;
  rm_id : JsVal;
  rm_type : JsVal;
  rm_fileContent : JsVal;
  rm_fileType : JsVal;
  rm_replyTo : JsVal;
  rm_encrypted : JsVal
}.

Inductive OutEvent : Type :=
  | chat_start (roomId : jsstr) (partnerName partnerProfilePic : JsVal)
  | partner_public_key (publicKey : JsVal)
  | receive_message (payload : ReceivePayload)
  | typing_out
  | stop_typing_out
  | message_edited (id text : JsVal)
  | message_deleted (id : JsVal)
  | partner_disconnected
  | rate_limit_exceeded (message : jsstr).

(** One event handed to one connection. *)
Definition Delivery : Type := jsstr * OutEvent.

(** ** Server state *)

(** [socket.data]; a new socket has [{}]. *)
Record SocketData : Type := mkData { username : JsVal; profilePic : JsVal }.

Definition no_data : SocketData := mkData JUndefined JUndefined.

(** The four collections of the server, the [data] object of every socket
    (the queue holds the socket objects themselves, here their ids, so a
    write to [socket.data] is seen through the queue), and the part of
    socket.io the handlers read: the connected sockets and the members of
    each transport room, both in insertion order.  A transport room
    without members is the same as no room. *)
Record State : Type := mkState {
  sockets : list jsstr;
  rooms : gmap jsstr (list jsstr);
  sockdata : gmap jsstr SocketData;
  waitingQueue : list jsstr;
  activeRooms : list (jsstr * jsstr);
  publicKeys : gmap jsstr jsstr;
  messageCounts : gmap jsstr RateRecord
}.

Definition init : State := mkState [] ∅ ∅ [] [] ∅ ∅.

Definition set_sockets v st :=
  mkState v (rooms st) (sockdata st) (waitingQueue st) (activeRooms st)
    (publicKeys st) (messageCounts st).
Definition set_rooms v st :=
  mkState (sockets st) v (sockdata st) (waitingQueue st) (activeRooms st)
    (publicKeys st) (messageCounts st).
Definition set_sockdata v st :=
  mkState (sockets st) (rooms st) v (waitingQueue st) (activeRooms st)
    (publicKeys st) (messageCounts st).
Definition set_waitingQueue v st :=
  mkState (sockets st) (rooms st) (sockdata st) v (activeRooms st)
    (publicKeys st) (messageCounts st).
Definition set_activeRooms v st :=
  mkState (sockets st) (rooms st) (sockdata st) (waitingQueue st) v
    (publicKeys st) (messageCounts st).
Definition set_publicKeys v st :=
  mkState (sockets st) (rooms st) (sockdata st) (waitingQueue st)
    (activeRooms st) v (messageCounts st).
Definition set_messageCounts v st :=
  mkState (sockets st) (rooms st) (sockdata st) (waitingQueue st)
    (activeRooms st) (publicKeys st) v.

Definition data_of (st : State) (socket : jsstr) : SocketData :=
  default no_data (sockdata st !! socket).

(** ** The transport (socket.io rooms and broadcasts)

    Every socket is a member of the room named by its own id from the
    moment it connects; [socket.join] and [socket.leave] add and remove it
    from named rooms; when a socket closes it has left every room by the
    time its [disconnect] handler runs. *)

Definition members (rs : gmap jsstr (list jsstr)) (room : jsstr) : list jsstr :=
  default [] (rs !! room).

Definition socket_join (socket room : jsstr) (rs : gmap jsstr (list jsstr))
    : gmap jsstr (list jsstr) :=
  let ms := members rs room in
  <[room := if bool_decide (socket ∈ ms) then ms else ms ++ [socket]]> rs.

Definition without (socket : jsstr) (ms : list jsstr) : list jsstr :=
  List.filter (fun id => negb (bool_decide (id = socket))) ms.

Definition socket_leave (socket room : jsstr) (rs : gmap jsstr (list jsstr))
    : gmap jsstr (list jsstr) :=
  <[room := without socket (members rs room)]> rs.

Definition leave_all (socket : jsstr) (rs : gmap jsstr (list jsstr))
    : gmap jsstr (list jsstr) :=
  without socket <$> rs.

(** The argument of [to]: one room, or an array of rooms. *)
Definition to_targets (room : JsVal) : list JsVal :=
  match room with JArr l => l | v => [v] end.

(** Room names are strings; any other value names no room. *)
Definition members_of (rs : gmap jsstr (list jsstr)) (target : JsVal) : list jsstr :=
  match target with JStr r => members rs r | _ => [] end.

(** Each socket is served once, in the order it is first met. *)
Fixpoint collect (except ids cands : list jsstr) : list jsstr :=
  match cands with
  | [] => ids
  | id :: rest =>
      if bool_decide (id ∈ ids) || bool_decide (id ∈ except)
      then collect except ids rest
      else collect except (ids ++ [id]) rest
  end.

(** The sockets a broadcast reaches: the members of the targeted rooms, or
    every connected socket when no room is targeted, but for [except]. *)
Definition recipients (st : State) (targets : list JsVal) (except : list jsstr)
    : list jsstr :=
  match targets with
  | [] => collect except [] (sockets st)
  | _ => collect except [] (flat_map (members_of (rooms st)) targets)
  end.

(** [io.to(room).emit(ev)] *)
Definition io_to (st : State) (room : JsVal) (ev : OutEvent) : list Delivery :=
  (fun id => (id, ev)) <$> recipients st (to_targets room) [].

(** [socket.to(room).emit(ev)]: everybody in the room but the sender. *)
Definition socket_to (st : State) (socket : jsstr) (room : JsVal) (ev : OutEvent)
    : list Delivery :=
  (fun id => (id, ev)) <$> recipients st (to_targets room) [socket].

(** [socket.emit(ev)] *)
Definition socket_emit (socket : jsstr) (ev : OutEvent) : list Delivery :=
  [(socket, ev)].

(** ** Payloads received from clients *)

(** [join_queue]: the two fields read from [data || {}]. *)
Record JoinData : Type := mkJoin { jq_username : JsVal; jq_profilePic : JsVal }.

(** [send_message]: the fields destructured from [data], an object. *)
Record SendData : Type := mkSend {
  sm_roomId : JsVal;
  sm_text : JsVal;
  sm_sender : JsVal;
  sm_type : JsVal;
  sm_fileContent : JsVal;
  sm_fileType : JsVal;
  sm_id : JsVal;
  sm_replyTo : JsVal;
  sm_encrypted : JsVal
}.

(** ** Handlers

    Each handler takes the id of the socket it is registered on and the
    state, and returns the new state with the deliveries it causes, oldest
    first. *)

(** [`room_${socket.id}_${partnerSocket.id}`] *)
Definition roomName (socket partnerSocket : jsstr) : jsstr :=
  js "room_" ++ socket ++ js "_" ++ partnerSocket.

(** [io.on('connection')]: socket.io registers the socket and puts it in
    the room of its own id; its [data] is a new empty object. *)
Definition connection (socket : jsstr) (st : State) : State * list Delivery :=
  (set_sockdata (<[socket := no_data]> (sockdata st))
     (set_rooms (socket_join socket socket (rooms st))
        (set_sockets (sockets st ++ [socket]) st)), []).

(** [socket.on('join_queue')] *)
Definition join_queue (socket : jsstr) (data : JoinData) (st : State)
    : State * list Delivery :=
  let mine := mkData (JStr (sanitizeUsername (jq_username data)))
                     (jq_profilePic data) in
  let st := set_sockdata (<[socket := mine]> (sockdata st)) st in
  if mhas socket (activeRooms st) then (st, [])
  else if bool_decide (socket ∈ waitingQueue st) then (st, [])
  else
    match waitingQueue st with
    | partnerSocket :: rest =>
        let roomId := roomName socket partnerSocket in
        let st := set_waitingQueue rest st in
        let st := set_rooms (socket_join partnerSocket roomId
                               (socket_join socket roomId (rooms st))) st in
        let st := set_activeRooms (mset partnerSocket roomId
                                     (mset socket roomId (activeRooms st))) st in
        (st,
         io_to st (JStr socket)
           (chat_start roomId (username (data_of st partnerSocket))
                              (profilePic (data_of st partnerSocket)))
         ++ io_to st (JStr partnerSocket)
           (chat_start roomId (username (data_of st socket))
                              (profilePic (data_of st socket))))
    | [] => (set_waitingQueue (waitingQueue st ++ [socket]) st, [])
    end.

(** [socket.on('exchange_keys')] *)
Definition exchange_keys (socket : jsstr) (publicKey : JsVal) (st : State)
    : State * list Delivery :=
  match publicKey with
  | JStr key =>
      if truthy publicKey then
        let st := set_publicKeys (<[socket := key]> (publicKeys st)) st in
        match mget socket (activeRooms st) with
        | Some roomId =>
            if truthy (JStr roomId)
            then (st, socket_to st socket (JStr roomId)
                        (partner_public_key publicKey))
            else (st, [])
        | None => (st, [])
        end
      else (st, [])
  | _ => (st, [])
  end.

Definition too_fast : jsstr := js "Sending messages too fast. Please slow down.".

(** [socket.on('send_message')]; [now] is the clock read by the rate
    limiter and [now'] the one read for [id || Date.now()]. *)
Definition send_message (now now' : Z) (socket : jsstr) (data : SendData)
    (st : State) : State * list Delivery :=
  let '(allowed, counts) := checkMessageRateLimit now socket (messageCounts st) in
  let st := set_messageCounts counts st in
  if negb allowed then
    (st, socket_emit socket (rate_limit_exceeded too_fast))
  else
    (st, socket_to st socket (sm_roomId data)
           (receive_message
              {| rm_text := sm_text data;
                 rm_sender := JStr (js "other");
                 rm_id := js_or (sm_id data) (JNum now');
                 rm_type := js_or (sm_type data) (JStr (js "text"));
                 rm_fileContent := sm_fileContent data;
                 rm_fileType := sm_fileType data;
                 rm_replyTo := sm_replyTo data;
                 rm_encrypted := sm_encrypted data |})).

(** [socket.on('typing')], ['stop_typing'], ['edit_message'],
    ['delete_message']: relays to the room named by the payload. *)
Definition typing (socket : jsstr) (roomId : JsVal) (st : State)
    : State * list Delivery :=
  (st, socket_to st socket roomId typing_out).

Definition stop_typing (socket : jsstr) (roomId : JsVal) (st : State)
    : State * list Delivery :=
  (st, socket_to st socket roomId stop_typing_out).

Definition edit_message (socket : jsstr) (roomId id text : JsVal) (st : State)
    : State * list Delivery :=
  (st, socket_to st socket roomId (message_edited id text)).

Definition delete_message (socket : jsstr) (roomId id : JsVal) (st : State)
    : State * list Delivery :=
  (st, socket_to st socket roomId (message_deleted id)).

(** [Array.from(activeRooms.entries())
      .find(([id, room]) => room === roomId && id !== socket.id)?.[0]] *)
Definition findPartner (socket roomId : jsstr) (m : list (jsstr * jsstr))
    : option jsstr :=
  fst <$> List.find (fun e => bool_decide (e.2 = roomId)
                              && negb (bool_decide (e.1 = socket))) m.

(** [if (partnerId)] *)
Definition found (partnerId : option jsstr) : option jsstr :=
  match partnerId with
  | Some p => if truthy (JStr p) then Some p else None
  | None => None
  end.

(** [socket.on('skip')] *)
Definition skip (socket : jsstr) (st : State) : State * list Delivery :=
  let '(st, out) :=
    match mget socket (activeRooms st) with
    | Some roomId =>
        if truthy (JStr roomId) then
          let partnerId := findPartner socket roomId (activeRooms st) in
          let out := socket_to st socket (JStr roomId) partner_disconnected in
          let st := set_rooms (socket_leave socket roomId (rooms st)) st in
          let st := set_activeRooms (mdel socket (activeRooms st)) st in
          match found partnerId with
          | Some p => (set_activeRooms (mdel p (activeRooms st)) st, out)
          | None => (st, out)
          end
        else (st, [])
    | None => (st, [])
    end in
  (set_waitingQueue (without socket (waitingQueue st)) st, out).

(** What socket.io has done to a closing socket before its [disconnect]
    handler runs. *)
Definition closed (socket : jsstr) (st : State) : State :=
  set_rooms (leave_all socket (rooms st))
    (set_sockets (without socket (sockets st)) st).

(** [socket.on('disconnect')] *)
Definition disconnect (socket : jsstr) (st : State) : State * list Delivery :=
  let st := closed socket st in
  let st := set_waitingQueue (without socket (waitingQueue st)) st in
  let st := set_publicKeys (delete socket (publicKeys st)) st in
  let st := set_messageCounts (delete socket (messageCounts st)) st in
  match mget socket (activeRooms st) with
  | Some roomId =>
      if truthy (JStr roomId) then
        let partnerId := findPartner socket roomId (activeRooms st) in
        let out := socket_to st socket (JStr roomId) partner_disconnected in
        let st := set_activeRooms (mdel socket (activeRooms st)) st in
        match found partnerId with
        | Some p =>
            (set_publicKeys (delete p (publicKeys st))
               (set_activeRooms (mdel p (activeRooms st)) st), out)
        | None => (st, out)
        end
      else (st, [])
  | None => (st, [])
  end.

(** ** Events and runs *)

Inductive Event : Type :=
  | Connection
  | JoinQueue (data : JoinData)
  | ExchangeKeys (publicKey : JsVal)
  | SendMessage (data : SendData) (now' : Z)
  | Typing (roomId : JsVal)
  | StopTyping (roomId : JsVal)
  | EditMessage (roomId id text : JsVal)
  | DeleteMessage (roomId id : JsVal)
  | Skip
  | Disconnect.

(** An event, the socket it arrives on and the time it is handled. *)
Record Input : Type := mkInput { at_time : Z; on_socket : jsstr; event : Event }.

(** The server handles one event at a time, to completion. *)
Definition step (i : Input) (st : State) : State * list Delivery :=
  let socket := on_socket i in
  match event i with
  | Connection => connection socket st
  | JoinQueue data => join_queue socket data st
  | ExchangeKeys publicKey => exchange_keys socket publicKey st
  | SendMessage data now' => send_message (at_time i) now' socket data st
  | Typing roomId => typing socket roomId st
  | StopTyping roomId => stop_typing socket roomId st
  | EditMessage roomId id text => edit_message socket roomId id text st
  | DeleteMessage roomId id => delete_message socket roomId id st
  | Skip => skip socket st
  | Disconnect => disconnect socket st
  end.

Fixpoint run (st : State) (inputs : list Input) : State * list Delivery :=
  match inputs with
  | [] => (st, [])
  | i :: rest =>
      let '(st1, out1) := step i st in
      let '(st2, out2) := run st1 rest in
      (st2, out1 ++ out2)
  end.

(** What socket.io guarantees about the events it hands over: a new
    connection carries an id that no connected socket has, all ids have
    the same number [n] of characters (socket.io draws 20), and every
    other event arrives on a connected socket. *)
Definition event_ok (n : nat) (i : Input) (st : State) : bool :=
  match event i with
  | Connection =>
      bool_decide (length (on_socket i) = n)
      && negb (bool_decide (on_socket i ∈ sockets st))
  | _ => bool_decide (on_socket i ∈ sockets st)
  end.

Fixpoint run_ok (n : nat) (st : State) (inputs : list Input) : bool :=
  match inputs with
  | [] => true
  | i :: rest => event_ok n i st && run_ok n (step i st).1 rest
  end.

(** The states the server can be in after it started empty. *)
Definition reachable (n : nat) (st : State) : Prop :=
  ∃ inputs, run_ok n init inputs = true ∧ (run init inputs).1 = st.

(** Successive calls of the rate limiter for one socket, at the given
    clock readings: the answers, and the table after the last call. *)
Fixpoint calls (socketId : jsstr) (times : list Z)
    (messageCounts : gmap jsstr RateRecord) : list bool * gmap jsstr RateRecord :=
  match times with
  | [] => ([], messageCounts)
  | now :: rest =>
      let '(allowed, counts) := checkMessageRateLimit now socketId messageCounts in
      let '(answers, counts') := calls socketId rest counts in
      (allowed :: answers, counts')
  end.

(** ** Sample connections and runs *)

Definition sockA : jsstr := js "A".
Definition sockB : jsstr := js "B".
Definition sockC : jsstr := js "C".

Definition named (name : string) : JoinData := mkJoin (JStr (js name)) JUndefined.

(** A text message for [roomId] with the given id. *)
Definition text_to (roomId : JsVal) (text : string) (id : JsVal) : SendData :=
  mkSend roomId (JStr (js text)) (JStr (js "me")) (JStr (js "text"))
         JUndefined JUndefined id JUndefined JUndefined.

(** A and B are connected and idle. *)
Definition two_idle : list Input :=
  [mkInput 0 sockA Connection; mkInput 0 sockB Connection].

(** A waits, B joins: the two are paired in [room_B_A]. *)
Definition two_paired : list Input :=
  two_idle ++ [mkInput 1 sockA (JoinQueue (named "alice"));
               mkInput 2 sockB (JoinQueue (named "bob"))].

(** A sends ten messages to its room within the same second. *)
Definition ten_sent : list Input :=
  two_paired
  ++ replicate 10 (mkInput 3 sockA
       (SendMessage (text_to (JStr (roomName sockB sockA)) "hi" (JNum 1)) 3)).

(** ** What holds of every reachable state *)

(** [partnerOf]: the partner the [skip] and [disconnect] handlers find for
    a socket, if any. *)
Definition partnerOf (st : State) (socket : jsstr) : option jsstr :=
  match mget socket (activeRooms st) with
  | Some roomId =>
      if truthy (JStr roomId)
      then found (findPartner socket roomId (activeRooms st))
      else None
  | None => None
  end.

(** The registry, the queue and the transport rooms agree: connected
    sockets have ids of [n] characters; the queue has no socket twice and
    none that is in a room; every socket of the registry shares its room
    with exactly one other socket, the room being named after the two;
    a socket is alone in the transport room of its own id, and only the
    two sockets a room is named after can be members of it. *)
Record Inv (n : nat) (st : State) : Prop := mkInv {
  inv_sockets : NoDup (sockets st);
  inv_length : ∀ s, s ∈ sockets st → length s = n;
  inv_queue : NoDup (waitingQueue st);
  inv_queued : ∀ q, q ∈ waitingQueue st →
    q ∈ sockets st ∧ mget q (activeRooms st) = None;
  inv_keys : NoDup (activeRooms st).*1;
  inv_paired : ∀ a r, mget a (activeRooms st) = Some r →
    a ∈ sockets st
    ∧ ∃ b, b ≠ a ∧ b ∈ sockets st ∧ mget b (activeRooms st) = Some r
           ∧ (r = roomName a b ∨ r = roomName b a);
  inv_own : ∀ s, s ∈ sockets st → members (rooms st) s = [s];
  inv_members : ∀ r m, m ∈ members (rooms st) r →
    m ∈ sockets st
    ∧ (r = m ∨ ∃ o, length o = n ∧ (r = roomName m o ∨ r = roomName o m));
  inv_nodup : ∀ r, NoDup (members (rooms st) r);
  inv_joined : ∀ a r, mget a (activeRooms st) = Some r →
    a ∈ members (rooms st) r
}.

(** The state once [join_queue] has written the name and the picture
    into [socket.data], which it does before it looks at anything. *)
Definition named_as (socket : jsstr) (data : JoinData) (st : State) : State :=
  set_sockdata
    (<[socket := mkData (JStr (sanitizeUsername (jq_username data)))
                        (jq_profilePic data)]> (sockdata st)) st.

(** The state once [socket] has been paired with [partnerSocket], the
    head of the queue. *)
Definition paired_with (socket partnerSocket : jsstr) (rest : list jsstr)
    (st : State) : State :=
  let roomId := roomName socket partnerSocket in
  set_activeRooms (mset partnerSocket roomId (mset socket roomId (activeRooms st)))
    (set_rooms (socket_join partnerSocket roomId
                  (socket_join socket roomId (rooms st)))
       (set_waitingQueue rest st)).

(** The state once the room of [socket] and [partnerId] is gone from the
    registry. *)
Definition dissolved (socket partnerId : jsstr) (st : State) : State :=
  set_activeRooms (mdel partnerId (mdel socket (activeRooms st))) st.

(** A waits alone in the queue under the name alice. *)
Definition one_waiting : list Input :=
  two_idle ++ [mkInput 1 sockA (JoinQueue (named "alice"))].

(** A and B are paired and B has published the key [K]. *)
Definition key_published : list Input :=
  two_paired ++ [mkInput 3 sockB (ExchangeKeys (JStr (js "K")))].

(** What the partner receives for a message of the client. *)
Definition relayed (now' : Z) (data : SendData) : ReceivePayload :=
  {| rm_text := sm_text data;
     rm_sender := JStr (js "other");
     rm_id := js_or (sm_id data) (JNum now');
     rm_type := js_or (sm_type data) (JStr (js "text"));
     rm_fileContent := sm_fileContent data;
     rm_fileType := sm_fileType data;
     rm_replyTo := sm_replyTo data;
     rm_encrypted := sm_encrypted data |}.

(** A closed decidable fact, by evaluation. *)
Ltac by_eval := apply (bool_decide_unpack _); vm_compute; exact I.

(** The scenario the specification ends with: A and B are paired, A says
    hi, then sends eleven messages within one second, then skips. *)
Definition scenario : list Input :=
  two_paired
  ++ [mkInput 3 sockA
        (SendMessage (text_to (JStr (roomName sockB sockA)) "hi" (JNum 1)) 3)]
  ++ replicate 11 (mkInput 2000 sockA
        (SendMessage (text_to (JStr (roomName sockB sockA)) "x" (JNum 2)) 2000))
  ++ [mkInput 3000 sockA Skip].

(** ** Strict equality *)

(** [a === b] on values that arrive in payloads.  Two objects or arrays
    that come out of different payloads are never the same object. *)
Definition strict_eq (a b : JsVal) : bool :=
  match a, b with
  | JUndefined, JUndefined => true
  | JNull, JNull => true
  | JBool x, JBool y => bool_decide (x = y)
  | JNum x, JNum y => (x =? y)
  | JStr x, JStr y => bool_decide (x = y)
  | _, _ => false
  end.

(** * The client

    The part of the [App] component of [src/app/App.tsx] that talks to the
    server: the React state the handlers read and write, the handlers of
    the events that arrive from the server, and the user actions that
    send something.  A handler returns the state after all its [set...]
    calls, with the requests it emits, oldest first.  Timers, the DOM,
    [localStorage] and the recorder are outside this model. *)

Module App.

Inductive View : Type := home | chat.

(** An entry of [messages].  A field the object does not have is
    [undefined]. *)
Record Message : Type := mkMessage {
  id : JsVal;
  text : JsVal;
  sender : JsVal;
  type : JsVal;
  fileContent : JsVal;
  fileType : JsVal;
  isEdited : JsVal;
  isDeleted : JsVal;
  replyTo : JsVal;
  encrypted : JsVal
}.

(** The [useState] cells the modelled handlers use.  [roomId] is a string
    or [null]; [replyingTo] is a message object or [null]. *)
Record state : Type := mk {
  view : View;
  isLoading : bool;
  message : jsstr;
  messages : list Message;
  roomId : JsVal;
  partnerName : JsVal;
  partnerProfilePic : JsVal;
  showEscModal : bool;
  editingMessageId : JsVal;
  editText : jsstr;
  isChatActive : bool;
  isPartnerTyping : bool;
  isRecording : bool;
  replyingTo : JsVal
}.

Definition setView (v : View) (s : state) : state :=
  mk v (isLoading s) (message s) (messages s) (roomId s) (partnerName s)
     (partnerProfilePic s) (showEscModal s) (editingMessageId s) (editText
     s) (isChatActive s) (isPartnerTyping s) (isRecording s) (replyingTo
     s).

Definition setIsLoading (v : bool) (s : state) : state :=
  mk (view s) v (message s) (messages s) (roomId s) (partnerName s)
     (partnerProfilePic s) (showEscModal s) (editingMessageId s) (editText
     s) (isChatActive s) (isPartnerTyping s) (isRecording s) (replyingTo
     s).

Definition setMessage (v : jsstr) (s : state) : state :=
  mk (view s) (isLoading s) v (messages s) (roomId s) (partnerName s)
     (partnerProfilePic s) (showEscModal s) (editingMessageId s) (editText
     s) (isChatActive s) (isPartnerTyping s) (isRecording s) (replyingTo
     s).

Definition setMessages (v : list Message) (s : state) : state :=
  mk (view s) (isLoading s) (message s) v (roomId s) (partnerName s)
     (partnerProfilePic s) (showEscModal s) (editingMessageId s) (editText
     s) (isChatActive s) (isPartnerTyping s) (isRecording s) (replyingTo
     s).

Definition setRoomId (v : JsVal) (s : state) : state :=
  mk (view s) (isLoading s) (message s) (messages s) v (partnerName s)
     (partnerProfilePic s) (showEscModal s) (editingMessageId s) (editText
     s) (isChatActive s) (isPartnerTyping s) (isRecording s) (replyingTo
     s).

Definition setPartnerName (v : JsVal) (s : state) : state :=
  mk (view s) (isLoading s) (message s) (messages s) (roomId s) v
     (partnerProfilePic s) (showEscModal s) (editingMessageId s) (editText
     s) (isChatActive s) (isPartnerTyping s) (isRecording s) (replyingTo
     s).

Definition setPartnerProfilePic (v : JsVal) (s : state) : state :=
  mk (view s) (isLoading s) (message s) (messages s) (roomId s)
     (partnerName s) v (showEscModal s) (editingMessageId s) (editText s)
     (isChatActive s) (isPartnerTyping s) (isRecording s) (replyingTo s).

Definition setShowEscModal (v : bool) (s : state) : state :=
  mk (view s) (isLoading s) (message s) (messages s) (roomId s)
     (partnerName s) (partnerProfilePic s) v (editingMessageId s)
     (editText s) (isChatActive s) (isPartnerTyping s) (isRecording s)
     (replyingTo s).

Definition setEditingMessageId (v : JsVal) (s : state) : state :=
  mk (view s) (isLoading s) (message s) (messages s) (roomId s)
     (partnerName s) (partnerProfilePic s) (showEscModal s) v (editText s)
     (isChatActive s) (isPartnerTyping s) (isRecording s) (replyingTo s).

Definition setEditText (v : jsstr) (s : state) : state :=
  mk (view s) (isLoading s) (message s) (messages s) (roomId s)
     (partnerName s) (partnerProfilePic s) (showEscModal s)
     (editingMessageId s) v (isChatActive s) (isPartnerTyping s)
     (isRecording s) (replyingTo s).

Definition setIsChatActive (v : bool) (s : state) : state :=
  mk (view s) (isLoading s) (message s) (messages s) (roomId s)
     (partnerName s) (partnerProfilePic s) (showEscModal s)
     (editingMessageId s) (editText s) v (isPartnerTyping s) (isRecording
     s) (replyingTo s).

Definition setIsPartnerTyping (v : bool) (s : state) : state :=
  mk (view s) (isLoading s) (message s) (messages s) (roomId s)
     (partnerName s) (partnerProfilePic s) (showEscModal s)
     (editingMessageId s) (editText s) (isChatActive s) v (isRecording s)
     (replyingTo s).

Definition setIsRecording (v : bool) (s : state) : state :=
  mk (view s) (isLoading s) (message s) (messages s) (roomId s)
     (partnerName s) (partnerProfilePic s) (showEscModal s)
     (editingMessageId s) (editText s) (isChatActive s) (isPartnerTyping
     s) v (replyingTo s).

Definition setReplyingTo (v : JsVal) (s : state) : state :=
  mk (view s) (isLoading s) (message s) (messages s) (roomId s)
     (partnerName s) (partnerProfilePic s) (showEscModal s)
     (editingMessageId s) (editText s) (isChatActive s) (isPartnerTyping
     s) (isRecording s) v.

(** *** Events from the server *)

(** [socket.on('chat_start')] *)
Definition on_chat_start (room : jsstr) (name pic : JsVal) (s : state) : state :=
  setIsChatActive true
    (setView chat
       (setIsLoading false
          (setMessages []
             (setPartnerProfilePic (js_or pic JNull)
                (setPartnerName (js_or name (JStr (js "Stranger")))
                   (setRoomId (JStr room) s)))))).

(** [{ ...data, sender: 'other' }] *)
Definition received (data : ReceivePayload) : Message :=
  {| id := rm_id data;
     text := rm_text data;
     sender := JStr (js "other");
     type := rm_type data;
     fileContent := rm_fileContent data;
     fileType := rm_fileType data;
     isEdited := JUndefined;
     isDeleted := JUndefined;
     replyTo := rm_replyTo data;
     encrypted := rm_encrypted data |}.

(** [socket.on('receive_message')] *)
Definition on_receive_message (data : ReceivePayload) (s : state) : state :=
  setMessages (messages s ++ [received data]) s.

(** [{ ...msg, text: t, isEdited: true }] *)
Definition edited (t : JsVal) (msg : Message) : Message :=
  {| id := id msg; text := t; sender := sender msg; type := type msg;
     fileContent := fileContent msg; fileType := fileType msg;
     isEdited := JBool true; isDeleted := isDeleted msg;
     replyTo := replyTo msg; encrypted := encrypted msg |}.

(** [{ ...msg, isDeleted: true }] *)
Definition deleted (msg : Message) : Message :=
  {| id := id msg; text := text msg; sender := sender msg; type := type msg;
     fileContent := fileContent msg; fileType := fileType msg;
     isEdited := isEdited msg; isDeleted := JBool true;
     replyTo := replyTo msg; encrypted := encrypted msg |}.

(** [prev.map(msg => msg.id === i ? { ...msg, text: t, isEdited: true } : msg)] *)
Definition edit_all (i t : JsVal) (prev : list Message) : list Message :=
  List.map (fun msg => if strict_eq (id msg) i then edited t msg else msg) prev.

(** [prev.map(msg => msg.id === i ? { ...msg, isDeleted: true } : msg)] *)
Definition delete_all (i : JsVal) (prev : list Message) : list Message :=
  List.map (fun msg => if strict_eq (id msg) i then deleted msg else msg) prev.

(** [socket.on('message_edited')] *)
Definition on_message_edited (i t : JsVal) (s : state) : state :=
  setMessages (edit_all i t (messages s)) s.

(** [socket.on('message_deleted')] *)
Definition on_message_deleted (i : JsVal) (s : state) : state :=
  setMessages (delete_all i (messages s)) s.

(** [{ id: Date.now(), text: t, sender: 'system' }] *)
Definition system_message (now : Z) (t : string) : Message :=
  {| id := JNum now; text := JStr (js t); sender := JStr (js "system");
     type := JUndefined; fileContent := JUndefined; fileType := JUndefined;
     isEdited := JUndefined; isDeleted := JUndefined;
     replyTo := JUndefined; encrypted := JUndefined |}.

(** [socket.on('partner_disconnected')] *)
Definition on_partner_disconnected (now : Z) (s : state) : state :=
  setIsPartnerTyping false
    (setIsChatActive false
       (setMessages
          (messages s ++ [system_message now "Stranger has disconnected."]) s)).

(** What the client does with an event of the server; it has no handler
    for [partner_public_key] and none for [rate_limit_exceeded]. *)
Definition on (now : Z) (ev : OutEvent) (s : state) : state :=
  match ev with
  | chat_start room name pic => on_chat_start room name pic s
  | receive_message data => on_receive_message data s
  | message_edited i t => on_message_edited i t s
  | message_deleted i => on_message_deleted i s
  | partner_disconnected => on_partner_disconnected now s
  | typing_out => setIsPartnerTyping true s
  | stop_typing_out => setIsPartnerTyping false s
  | partner_public_key _ => s
  | rate_limit_exceeded _ => s
  end.

(** *** User actions *)

(** What the client emits. *)
Inductive Request : Type :=
  | send_message_req (data : SendData)
  | stop_typing_req (room : JsVal)
  | edit_message_req (room i t : JsVal)
  | delete_message_req (room i : JsVal)
  | skip_req.

(** [handleSendMessage]; [now] is [Date.now()]. *)
Definition handleSendMessage (now : Z) (s : state) : state * list Request :=
  if (truthy (JStr (trim (message s))) || isRecording s) && truthy (roomId s)
  then
    let i := JNum now in
    let newMessage :=
      {| id := i; text := JStr (message s); sender := JStr (js "user");
         type := JStr (js "text");
         fileContent := JUndefined; fileType := JUndefined;
         isEdited := JUndefined; isDeleted := JUndefined;
         replyTo := js_or (replyingTo s) JUndefined;
         encrypted := JUndefined |} in
    (setReplyingTo JNull
       (setMessage [] (setMessages (messages s ++ [newMessage]) s)),
     [send_message_req
        {| sm_roomId := roomId s; sm_text := JStr (message s);
           sm_sender := JStr (js "user"); sm_type := JStr (js "text");
           sm_fileContent := JUndefined; sm_fileType := JUndefined;
           sm_id := i; sm_replyTo := replyingTo s;
           sm_encrypted := JUndefined |};
      stop_typing_req (roomId s)])
  else (s, []).

(** [handleEdit] *)
Definition handleEdit (i : JsVal) (t : jsstr) (s : state) : state :=
  setEditText t (setEditingMessageId i s).

(** [submitEdit] *)
Definition submitEdit (i : JsVal) (s : state) : state * list Request :=
  if truthy (roomId s) then
    (setEditText []
       (setEditingMessageId JNull
          (setMessages (edit_all i (JStr (editText s)) (messages s)) s)),
     [edit_message_req (roomId s) i (JStr (editText s))])
  else (s, []).

(** [handleDelete] *)
Definition handleDelete (i : JsVal) (s : state) : state * list Request :=
  if truthy (roomId s) then
    (setMessages (delete_all i (messages s)) s,
     [delete_message_req (roomId s) i])
  else (s, []).

(** [handleQuit] *)
Definition handleQuit (now : Z) (s : state) : state * list Request :=
  (setShowEscModal false
     (setMessages (messages s ++ [system_message now "You have disconnected."])
        (setIsChatActive false (setRoomId JNull s))),
   [skip_req]).

(** *** Client and server together *)

(** A request as the server sees it; [now'] is the clock the server reads
    when it has to fill in an id. *)
Definition arrive (now' : Z) (r : Request) : Event :=
  match r with
  | send_message_req data => SendMessage data now'
  | stop_typing_req room => StopTyping room
  | edit_message_req room i t => EditMessage room i t
  | delete_message_req room i => DeleteMessage room i
  | skip_req => Skip
  end.

(** The server handles the requests a socket emitted, in order, at
    time [t]. *)
Definition serve (t : Z) (socket : jsstr) (requests : list Request)
    (st : State) : State * list Delivery :=
  run st (List.map (fun r => mkInput t socket (arrive t r)) requests).

(** The client of socket [me] handles what was sent to it, in order. *)
Definition deliver (now : Z) (me : jsstr) (out : list Delivery) (s : state)
    : state :=
  fold_left (fun s d => if bool_decide (d.1 = me) then on now d.2 s else s)
            out s.

(** What the two sides of a conversation have to agree on. *)
Definition shown (msg : Message) : JsVal * JsVal * JsVal * JsVal :=
  (id msg, text msg, isEdited msg, isDeleted msg).

End App.

(** ** A conversation *)

(** What the user of a paired client can do to the conversation. *)
Inductive Action : Type :=
  | Send
  | Edit (i : JsVal)
  | Delete (i : JsVal).

Definition act (now : Z) (action : Action) (s : App.state)
    : App.state * list App.Request :=
  match action with
  | Send => App.handleSendMessage now s
  | Edit i => App.submitEdit i s
  | Delete i => App.handleDelete i s
  end.

(** The user of socket [a] acts at client time [now]; the server handles
    what the client emitted at time [t]; the clients of [a] and of [b]
    handle what the server sent them. *)
Definition exchange (now t : Z) (a b : jsstr) (action : Action)
    (st : State) (ca cb : App.state) : State * App.state * App.state :=
  let '(ca1, requests) := act now action ca in
  let '(st1, out) := App.serve t a requests st in
  (st1, App.deliver t a out ca1, App.deliver t b out cb).

(** The client as [useState] first builds it (with no name typed yet),
    and a client that has been told it is in [room] and whose user has
    typed [typed]. *)
Definition fresh_client : App.state :=
  App.mk App.home false [] [] JNull (JStr (js "Stranger")) JNull false JNull []
         false false false JNull.

Definition client_in (room : jsstr) (typed : string) : App.state :=
  App.setMessage (js typed)
    (App.on_chat_start room (JStr (js "bob")) JUndefined fresh_client).

(** * Properties *)

(** ** Display names *)

(** The characters [validator.escape] rewrites, the ampersand apart (it
    comes back as the first character of every entity). *)
Definition markup : list N := [96; 92; 47; 62; 60; 39; 34]%N.

Lemma replaceAll_avoids (bad : list N) (c : N) (rep s : jsstr) :
  Forall (λ x, x ∉ bad) s →
  Forall (λ x, x ∉ c :: bad) rep →
  Forall (λ x, x ∉ c :: bad) (replaceAll c rep s).
Proof.
  intros Hs Hrep. induction Hs as [|x s Hx _ IH]; simpl; [constructor|].
  apply Forall_app. split; [|exact IH].
  destruct (N.eqb_spec x c) as [->|Hne]; [exact Hrep|].
  constructor; [|constructor].
  rewrite not_elem_of_cons. split; assumption.
Qed.

Lemma escape_no_markup (s : jsstr) : Forall (λ x, x ∉ markup) (escape s).
Proof.
  unfold escape, markup.
  repeat (apply replaceAll_avoids; [| repeat constructor; by_eval]).
  apply Forall_forall. intros x _. apply not_elem_of_nil.
Qed.

Lemma js_or_str_cases (a b : jsstr) :
  (a = [] ∧ js_or_str a b = b) ∨ (a ≠ [] ∧ js_or_str a b = a).
Proof. destruct a; [left|right]; done. Qed.

Lemma sanitizeUsername_not_string (v : JsVal) :
  is_string v = false → sanitizeUsername v = Anonymous.
Proof.
  intros H. unfold sanitizeUsername. rewrite H. simpl.
  by rewrite orb_true_r.
Qed.

Lemma sanitizeUsername_cases (v : JsVal) :
  sanitizeUsername v = Anonymous
  ∨ ∃ s, v = JStr s ∧ sanitizeUsername v = substring0 50 (escape (trim s)).
Proof.
  destruct (is_string v) eqn:Hv;
    [|left; by apply sanitizeUsername_not_string].
  destruct v as [| | | | |s| |]; try discriminate.
  destruct s as [|c s]; [left; reflexivity|].
  unfold sanitizeUsername. simpl negb. cbv iota. simpl orb. cbv iota.
  destruct (js_or_str_cases (substring0 50 (escape (trim (c :: s)))) Anonymous)
    as [[_ ->]|[_ ->]]; [left; reflexivity|right; eauto].
Qed.

(** C9: the display name stored by [join_queue] is the sanitized one: at
    most 50 code units long, free of the characters that open or close
    markup (the name [<script>x</script>] is stored with its angle
    brackets and its slash escaped), and [Anonymous] when the submitted
    value is missing, is not a string, or is empty once trimmed and
    escaped. *)
Theorem sanitizeUsername_stored (socket : jsstr) (data : JoinData) (st : State) :
  let name := sanitizeUsername (jq_username data) in
  username (data_of (join_queue socket data st).1 socket) = JStr name
  ∧ (length name ≤ 50)%nat
  ∧ Forall (λ c, c ∉ markup) name
  ∧ sanitizeUsername (JStr (js "<script>x</script>"))
    = js "&lt;script&gt;x&lt;&#x2F;script&gt;"
  ∧ sanitizeUsername JUndefined = Anonymous
  ∧ (is_string (jq_username data) = false → name = Anonymous)
  ∧ (∀ s, jq_username data = JStr s → escape (trim s) = [] → name = Anonymous).
Proof.
  intros name. split; [|split; [|split; [|split; [|split; [|split]]]]].
  - unfold join_queue.
    set (mine := mkData _ _).
    set (st1 := set_sockdata _ st).
    assert (Hd : ∀ s', sockdata s' = sockdata st1 → data_of s' socket = mine).
    { intros s' Hs. unfold data_of. rewrite Hs. unfold st1. simpl.
      by rewrite lookup_insert_eq. }
    destruct (mhas socket (activeRooms st1)); [by rewrite Hd|].
    destruct (bool_decide _); [by rewrite Hd|].
    destruct (waitingQueue st1); by rewrite Hd.
  - destruct (sanitizeUsername_cases (jq_username data)) as [H|(s & _ & H)];
      unfold name; rewrite H.
    + vm_compute. lia.
    + unfold substring0. rewrite length_take. lia.
  - destruct (sanitizeUsername_cases (jq_username data)) as [H|(s & _ & H)];
      unfold name; rewrite H.
    + unfold markup. repeat constructor; by_eval.
    + unfold substring0. apply Forall_take, escape_no_markup.
  - vm_compute. reflexivity.
  - reflexivity.
  - apply sanitizeUsername_not_string.
  - intros s Hs He. unfold name. rewrite Hs.
    destruct s as [|c s]; [reflexivity|].
    unfold sanitizeUsername. simpl negb. cbv iota. simpl orb. cbv iota.
    rewrite He. reflexivity.
Qed.

Lemma sanitizeUsername_stored_witness :
  sanitizeUsername (JNum 7) = Anonymous
  ∧ sanitizeUsername (JStr (js "   ")) = Anonymous.
Proof.
  split.
  - destruct (sanitizeUsername_stored sockA (mkJoin (JNum 7) JUndefined) init)
      as (_ & _ & _ & _ & _ & H & _).
    apply H. reflexivity.
  - destruct (sanitizeUsername_stored sockA (mkJoin (JStr (js "   ")) JUndefined) init)
      as (_ & _ & _ & _ & _ & _ & H).
    apply (H (js "   ")); reflexivity.
Defined.

(** ** Rate limiter *)

Lemma calls_app (socketId : jsstr) (ts1 ts2 : list Z) (mc : gmap jsstr RateRecord) :
  calls socketId (ts1 ++ ts2) mc
  = ((calls socketId ts1 mc).1 ++ (calls socketId ts2 (calls socketId ts1 mc).2).1,
     (calls socketId ts2 (calls socketId ts1 mc).2).2).
Proof.
  revert mc. induction ts1 as [|t ts1 IH]; intros mc; simpl.
  - by destruct (calls socketId ts2 mc).
  - destruct (checkMessageRateLimit t socketId mc) as [b mc1].
    rewrite IH. by destruct (calls socketId ts1 mc1).
Qed.

(** Inside a window, calls are let through until the count reaches the
    limit; the window end stays where it is. *)
Lemma calls_in_window (socketId : jsstr) (ts : list Z) (mc : gmap jsstr RateRecord)
    (c e : Z) :
  mc !! socketId = Some (mkRate c e) →
  Forall (λ t, t <= e) ts →
  c + Z.of_nat (length ts) <= MESSAGE_RATE_LIMIT →
  (calls socketId ts mc).1 = replicate (length ts) true
  ∧ (calls socketId ts mc).2 !! socketId
    = Some (mkRate (c + Z.of_nat (length ts)) e).
Proof.
  revert mc c. induction ts as [|t ts IH]; intros mc c Hmc Hts Hc.
  - simpl. rewrite Z.add_0_r. done.
  - apply Forall_cons in Hts as [Ht Hts]. simpl length in *.
    simpl calls. unfold checkMessageRateLimit. rewrite Hmc. simpl.
    destruct (Z.gtb_spec t e) as [?|_]; [lia|].
    destruct (Z.geb_spec c MESSAGE_RATE_LIMIT) as [?|_]; [lia|].
    destruct (IH (<[socketId := mkRate (c + 1) e]> mc) (c + 1)) as [IH1 IH2];
      [by rewrite lookup_insert_eq | done | lia |].
    destruct (calls socketId ts _) as [bs mc2]. simpl in *.
    split; [by rewrite IH1|]. rewrite IH2. do 2 f_equal. lia.
Qed.

(** Once the count is at the limit, every call inside the window is
    refused and changes nothing; the first call after it opens a new one. *)
Lemma calls_refused (socketId : jsstr) (ts : list Z) (mc : gmap jsstr RateRecord)
    (e later : Z) :
  mc !! socketId = Some (mkRate MESSAGE_RATE_LIMIT e) →
  Forall (λ t, t <= e) ts →
  e < later →
  calls socketId (ts ++ [later]) mc
  = (replicate (length ts) false ++ [true],
     <[socketId := mkRate 1 (later + RATE_WINDOW)]> mc).
Proof.
  intros Hmc Hts Hlater. induction Hts as [|t ts Ht _ IH]; simpl.
  - unfold checkMessageRateLimit. rewrite Hmc. simpl.
    destruct (Z.gtb_spec later e); [done|lia].
  - unfold checkMessageRateLimit at 1. rewrite Hmc. simpl.
    destruct (Z.gtb_spec t e); [lia|]. by rewrite IH.
Qed.

(** C2: the three cases of one call, and what they add up to: after a
    call that opens a window, nine more calls inside it pass, the next
    one inside it is refused however often it is repeated, and a call
    after the window has ended passes again. *)
Theorem rate_limit_window (socketId : jsstr) (mc : gmap jsstr RateRecord) (now : Z) :
  (mc !! socketId = None ∨ (∃ r, mc !! socketId = Some r ∧ resetTime r < now) →
     checkMessageRateLimit now socketId mc
     = (true, <[socketId := mkRate 1 (now + 1000)]> mc))
  ∧ (∀ r, mc !! socketId = Some r → now <= resetTime r → count r < 10 →
     checkMessageRateLimit now socketId mc
     = (true, <[socketId := mkRate (count r + 1) (resetTime r)]> mc))
  ∧ (∀ r, mc !! socketId = Some r → now <= resetTime r → 10 <= count r →
     checkMessageRateLimit now socketId mc = (false, mc))
  ∧ (∀ inside refused later,
     (mc !! socketId = None ∨ (∃ r, mc !! socketId = Some r ∧ resetTime r < now)) →
     length inside = 9%nat →
     Forall (λ t, t <= now + 1000) (inside ++ refused) →
     now + 1000 < later →
     (calls socketId (now :: inside ++ refused ++ [later]) mc).1
     = replicate 10 true ++ replicate (length refused) false ++ [true]).
Proof.
  assert (Hopen : mc !! socketId = None
                  ∨ (∃ r, mc !! socketId = Some r ∧ resetTime r < now) →
                  checkMessageRateLimit now socketId mc
                  = (true, <[socketId := mkRate 1 (now + 1000)]> mc)).
  { intros [H|(r & H & Hr)]; unfold checkMessageRateLimit; rewrite H; [done|].
    destruct (Z.gtb_spec now (resetTime r)); [done|lia]. }
  split; [exact Hopen|]. split; [|split].
  - intros r H Hr Hc. unfold checkMessageRateLimit. rewrite H.
    destruct (Z.gtb_spec now (resetTime r)); [lia|].
    destruct (Z.geb_spec (count r) MESSAGE_RATE_LIMIT) as [Hge|_]; [|done].
    unfold MESSAGE_RATE_LIMIT in Hge. lia.
  - intros r H Hr Hc. unfold checkMessageRateLimit. rewrite H.
    destruct (Z.gtb_spec now (resetTime r)); [lia|].
    destruct (Z.geb_spec (count r) MESSAGE_RATE_LIMIT) as [_|Hlt]; [done|].
    unfold MESSAGE_RATE_LIMIT in Hlt. lia.
  - intros inside refused later Hfirst Hlen Hin Hlater.
    apply Forall_app in Hin as [Hin Href].
    simpl calls. rewrite (Hopen Hfirst).
    set (mc1 := <[socketId := mkRate 1 (now + 1000)]> mc).
    destruct (calls_in_window socketId inside mc1 1 (now + 1000))
      as [Hb Hmc]; [by apply lookup_insert_eq | done
                   | rewrite Hlen; unfold MESSAGE_RATE_LIMIT; lia |].
    rewrite Hlen in Hb, Hmc. simpl Z.add in Hmc.
    rewrite calls_app. destruct (calls socketId inside mc1) as [bs mc2].
    simpl in Hb, Hmc. subst bs. simpl fst. simpl snd.
    rewrite (calls_refused socketId refused mc2 (now + 1000) later Hmc Href Hlater).
    simpl. reflexivity.
Qed.

Lemma rate_limit_window_witness :
  (calls (js "A") (0 :: [1; 2; 3; 4; 5; 6; 7; 8; 1000] ++ [1000; 1000] ++ [1001]) ∅).1
  = replicate 10 true ++ replicate 2 false ++ [true].
Proof.
  apply (rate_limit_window (js "A") ∅ 0);
    [left; reflexivity | reflexivity | repeat constructor; lia | lia].
Defined.

(** ** The registry as a map *)

Lemma mget_mdel {V : Type} (k k' : jsstr) (m : list (jsstr * V)) :
  mget k' (mdel k m) = if decide (k = k') then None else mget k' m.
Proof.
  unfold mget, mdel. induction m as [|[a v] m IH]; simpl.
  - by destruct (decide _).
  - destruct (decide (a = k)) as [->|Hak].
    + rewrite bool_decide_eq_true_2 by done. simpl. rewrite IH.
      destruct (decide (k = k')) as [->|Hkk]; [done|].
      by rewrite bool_decide_eq_false_2.
    + rewrite (bool_decide_eq_false_2 (a = k)) by done. simpl.
      destruct (decide (a = k')) as [->|Hak'].
      * rewrite bool_decide_eq_true_2 by done.
        destruct (decide (k = k')); [congruence|done].
      * rewrite bool_decide_eq_false_2 by done. exact IH.
Qed.

Lemma mget_mdel_eq {V : Type} (k : jsstr) (m : list (jsstr * V)) :
  mget k (mdel k m) = None.
Proof. rewrite mget_mdel. by destruct (decide _). Qed.

Lemma mget_mdel_None {V : Type} (k k' : jsstr) (m : list (jsstr * V)) :
  mget k' m = None → mget k' (mdel k m) = None.
Proof. intros H. rewrite mget_mdel. by destruct (decide _). Qed.

Lemma without_without (socket : jsstr) (l : list jsstr) :
  without socket (without socket l) = without socket l.
Proof.
  unfold without. induction l as [|x l IH]; simpl; [done|].
  destruct (negb (bool_decide (x = socket))) eqn:E; simpl; [|done].
  by rewrite E, IH.
Qed.

(** ** Skip *)

Lemma skip_again (socket : jsstr) (st : State) :
  skip socket (skip socket st).1 = ((skip socket st).1, []).
Proof.
  unfold skip at 2 3.
  destruct (mget socket (activeRooms st)) as [roomId|] eqn:Hget.
  - destruct roomId as [|c roomId]; simpl truthy; cbv iota.
    + unfold skip. simpl. rewrite Hget. simpl. by rewrite without_without.
    + destruct (found _) as [p|]; unfold skip; simpl;
        rewrite ?mget_mdel_None by apply mget_mdel_eq;
        rewrite ?mget_mdel_eq; simpl; by rewrite without_without.
  - unfold skip. simpl. rewrite Hget. simpl. by rewrite without_without.
Qed.

(** C7: a second [skip] right after the first changes nothing and emits
    nothing, so state and trace are those of a single [skip]; and a
    [skip] on a connection without a room leaves the registry and the
    transport rooms alone and emits nothing at all. *)
Theorem skip_idempotent (t1 t2 : Z) (socket : jsstr) (st : State) :
  run st [mkInput t1 socket Skip; mkInput t2 socket Skip]
  = run st [mkInput t1 socket Skip]
  ∧ (mget socket (activeRooms st) = None →
     activeRooms (skip socket st).1 = activeRooms st
     ∧ rooms (skip socket st).1 = rooms st
     ∧ (skip socket st).2 = []).
Proof.
  split.
  - simpl. unfold step. simpl.
    pose proof (skip_again socket st) as H.
    destruct (skip socket st) as [st1 out1]. simpl in H. rewrite H.
    reflexivity.
  - intros Hget. unfold skip. rewrite Hget. done.
Qed.

Lemma skip_idempotent_witness :
  activeRooms (skip sockC (run init two_paired).1).1
  = activeRooms (run init two_paired).1
  ∧ (skip sockC (run init two_paired).1).2 = [].
Proof.
  destruct (skip_idempotent 0 0 sockC (run init two_paired).1) as [_ H].
  destruct H as (H1 & _ & H3); [vm_compute; reflexivity|].
  split; [exact H1 | exact H3].
Defined.

(** ** Messages *)

Lemma set_messageCounts_same (st : State) :
  set_messageCounts (messageCounts st) st = st.
Proof. by destruct st. Qed.

(** C6: a message the rate limiter refuses causes exactly one delivery,
    [rate_limit_exceeded] to the sender; nothing goes to anybody else and
    the state is left as it was. *)
Theorem rate_limited_message (now now' : Z) (socket : jsstr) (data : SendData)
    (st : State) :
  (checkMessageRateLimit now socket (messageCounts st)).1 = false →
  send_message now now' socket data st
  = (st, [(socket, rate_limit_exceeded too_fast)]).
Proof.
  intros Hno. unfold send_message.
  assert (Hmc : (checkMessageRateLimit now socket (messageCounts st)).2
                = messageCounts st).
  { revert Hno. unfold checkMessageRateLimit.
    destruct (messageCounts st !! socket) as [r|]; [|done].
    destruct (now >? resetTime r); [done|].
    destruct (count r >=? MESSAGE_RATE_LIMIT); done. }
  destruct (checkMessageRateLimit now socket (messageCounts st)) as [ok mc].
  simpl in Hno, Hmc. subst ok mc. simpl.
  by rewrite set_messageCounts_same.
Qed.

Lemma rate_limited_message_witness :
  send_message 3 3 sockA (text_to (JStr (roomName sockB sockA)) "hi" (JNum 11))
    (run init ten_sent).1
  = ((run init ten_sent).1, [(sockA, rate_limit_exceeded too_fast)]).
Proof.
  apply rate_limited_message. vm_compute. reflexivity.
Defined.

(** C10: a relayed message carries the sender's id when that id is
    truthy, and the server's clock reading otherwise; the ids [0] and
    the empty string are of the second kind. *)
Theorem relayed_message_id (now now' : Z) (socket : jsstr) (data : SendData)
    (st : State) (to : jsstr) (p : ReceivePayload) :
  (to, receive_message p) ∈ (send_message now now' socket data st).2 →
  (truthy (sm_id data) = true → rm_id p = sm_id data)
  ∧ (truthy (sm_id data) = false → rm_id p = JNum now')
  ∧ (sm_id data = JNum 0 ∨ sm_id data = JStr [] → rm_id p = JNum now').
Proof.
  unfold send_message.
  destruct (checkMessageRateLimit now socket (messageCounts st)) as [[|] mc];
    simpl.
  - unfold socket_to. intros (id & Heq & _)%list_elem_of_fmap.
    injection Heq as _ ->. simpl. unfold js_or.
    split; [by intros ->|]. split; [by intros ->|].
    by intros [->| ->].
  - unfold socket_emit. intros H%list_elem_of_singleton. discriminate.
Qed.

Lemma relayed_message_id_witness :
  rm_id (relayed 7 (text_to (JStr (roomName sockB sockA)) "hi" (JNum 0)))
  = JNum 7.
Proof.
  assert (H : (sockB, receive_message
                 (relayed 7 (text_to (JStr (roomName sockB sockA)) "hi" (JNum 0))))
              ∈ (send_message 3 7 sockA
                   (text_to (JStr (roomName sockB sockA)) "hi" (JNum 0))
                   (run init two_paired).1).2).
  { vm_compute. apply list_elem_of_here. }
  destruct (relayed_message_id _ _ _ _ _ _ _ H) as (_ & _ & H3).
  apply H3. left. reflexivity.
Defined.

(** ** Maps, rooms and broadcasts *)

Lemma mget_elem {V : Type} (k : jsstr) (v : V) (m : list (jsstr * V)) :
  mget k m = Some v → (k, v) ∈ m.
Proof.
  unfold mget. destruct (List.find _ m) as [[k' v']|] eqn:E; [|done].
  simpl. intros [= ->]. apply find_some in E as [Hin Hk].
  apply bool_decide_eq_true in Hk. simpl in Hk. subst k'.
  by apply list_elem_of_In.
Qed.

Lemma elem_mget {V : Type} (k : jsstr) (v : V) (m : list (jsstr * V)) :
  NoDup m.*1 → (k, v) ∈ m → mget k m = Some v.
Proof.
  unfold mget. induction m as [|[k' v'] m IH]; simpl.
  - intros _ H. by apply elem_of_nil in H.
  - intros [Hk' Hm]%NoDup_cons [[= -> ->]|Hin]%elem_of_cons.
    + by rewrite bool_decide_eq_true_2.
    + destruct (decide (k' = k)) as [->|Hne].
      * exfalso. apply Hk'. apply list_elem_of_fmap. by exists (k, v).
      * rewrite bool_decide_eq_false_2 by done. by apply IH.
Qed.

Lemma mget_None_keys {V : Type} (k : jsstr) (m : list (jsstr * V)) :
  mget k m = None ↔ k ∉ m.*1.
Proof.
  unfold mget. induction m as [|[k' v'] m IH]; simpl.
  - split; [intros _; apply not_elem_of_nil|done].
  - rewrite not_elem_of_cons. destruct (decide (k' = k)) as [->|Hne].
    + rewrite bool_decide_eq_true_2 by done. simpl. split; [done|].
      by intros [? _].
    + rewrite bool_decide_eq_false_2 by done. rewrite IH.
      split; [intros ?; split; [congruence|done]|by intros [_ ?]].
Qed.

Lemma mget_mset {V : Type} (k k' : jsstr) (v : V) (m : list (jsstr * V)) :
  mget k' (mset k v m) = if decide (k = k') then Some v else mget k' m.
Proof.
  unfold mget. induction m as [|[a w] m IH]; simpl.
  - destruct (decide (k = k')) as [->|Hne].
    + by rewrite bool_decide_eq_true_2.
    + by rewrite bool_decide_eq_false_2.
  - destruct (decide (a = k)) as [->|Hak].
    + rewrite bool_decide_eq_true_2 by done. simpl.
      destruct (decide (k = k')) as [->|Hne].
      * by rewrite bool_decide_eq_true_2.
      * by rewrite !bool_decide_eq_false_2.
    + rewrite (bool_decide_eq_false_2 (a = k)) by done. simpl.
      destruct (decide (a = k')) as [->|Hak'].
      * rewrite bool_decide_eq_true_2 by done.
        destruct (decide (k = k')); [congruence|done].
      * rewrite bool_decide_eq_false_2 by done. exact IH.
Qed.

Lemma mset_keys {V : Type} (k : jsstr) (v : V) (m : list (jsstr * V)) :
  (mset k v m).*1 = if decide (k ∈ m.*1) then m.*1 else m.*1 ++ [k].
Proof.
  induction m as [|[a w] m IH]; [reflexivity|].
  cbn [mset fst]. rewrite fmap_cons. cbn [fst].
  destruct (decide (a = k)) as [->|Hak].
  - rewrite bool_decide_eq_true_2 by done.
    rewrite decide_True by left. reflexivity.
  - rewrite bool_decide_eq_false_2 by done. rewrite fmap_cons, IH. cbn [fst].
    destruct (decide (k ∈ m.*1)) as [Hin|Hout].
    + rewrite decide_True by (by right). reflexivity.
    + rewrite decide_False; [reflexivity|].
      intros [?|?]%elem_of_cons; [congruence|done].
Qed.

Lemma mset_NoDup {V : Type} (k : jsstr) (v : V) (m : list (jsstr * V)) :
  NoDup m.*1 → NoDup (mset k v m).*1.
Proof.
  intros H. rewrite mset_keys. case_decide as Hout; [done|].
  apply NoDup_app. split; [done|]. split; [|apply NoDup_singleton].
  intros x Hx ->%list_elem_of_singleton. done.
Qed.

Lemma mdel_NoDup {V : Type} (k : jsstr) (m : list (jsstr * V)) :
  NoDup m.*1 → NoDup (mdel k m).*1.
Proof.
  unfold mdel. induction m as [|[a w] m IH]; simpl; [done|].
  intros [Ha Hm]%NoDup_cons. destruct (negb _); simpl; [|by apply IH].
  apply NoDup_cons. split; [|by apply IH].
  intros (e & He1 & He2)%list_elem_of_fmap. apply Ha.
  apply list_elem_of_fmap. exists e. split; [done|].
  apply list_elem_of_In. apply list_elem_of_In in He2.
  by apply filter_In in He2 as [? _].
Qed.

Lemma elem_of_without (socket x : jsstr) (l : list jsstr) :
  x ∈ without socket l ↔ x ∈ l ∧ x ≠ socket.
Proof.
  unfold without. rewrite !list_elem_of_In, filter_In.
  rewrite negb_true_iff, bool_decide_eq_false. done.
Qed.

Lemma without_NoDup (socket : jsstr) (l : list jsstr) :
  NoDup l → NoDup (without socket l).
Proof.
  unfold without. induction 1 as [|x l Hx _ IH]; simpl; [constructor|].
  destruct (negb _); [|done]. constructor; [|done].
  intros [? _]%(elem_of_without socket). done.
Qed.

Lemma without_absent (socket : jsstr) (l : list jsstr) :
  socket ∉ l → without socket l = l.
Proof.
  unfold without. induction l as [|x l IH]; simpl; [done|].
  intros [Hne Hl]%not_elem_of_cons.
  rewrite bool_decide_eq_false_2 by done. simpl. by rewrite IH.
Qed.

Lemma members_join (s r r' : jsstr) (rs : gmap jsstr (list jsstr)) :
  members (socket_join s r rs) r'
  = if decide (r = r')
    then (if bool_decide (s ∈ members rs r) then members rs r
          else members rs r ++ [s])
    else members rs r'.
Proof.
  unfold socket_join, members at 1. destruct (decide (r = r')) as [->|Hne].
  - by rewrite lookup_insert_eq.
  - by rewrite lookup_insert_ne.
Qed.

Lemma members_leave (s r r' : jsstr) (rs : gmap jsstr (list jsstr)) :
  members (socket_leave s r rs) r'
  = if decide (r = r') then without s (members rs r) else members rs r'.
Proof.
  unfold socket_leave, members at 1. destruct (decide (r = r')) as [->|Hne].
  - by rewrite lookup_insert_eq.
  - by rewrite lookup_insert_ne.
Qed.

Lemma members_leave_all (s r : jsstr) (rs : gmap jsstr (list jsstr)) :
  members (leave_all s rs) r = without s (members rs r).
Proof.
  unfold leave_all, members. rewrite lookup_fmap.
  by destruct (rs !! r).
Qed.

Lemma elem_of_collect (except ids cands : list jsstr) (x : jsstr) :
  x ∈ collect except ids cands ↔ x ∈ ids ∨ (x ∈ cands ∧ x ∉ except).
Proof.
  revert ids. induction cands as [|c cands IH]; intros ids; simpl.
  - split; [by left|]. intros [?|[H _]]; [done|]. by apply elem_of_nil in H.
  - destruct (decide (c ∈ ids)) as [E1|E1].
    + rewrite bool_decide_eq_true_2 by done. simpl.
      rewrite IH, elem_of_cons. naive_solver.
    + rewrite (bool_decide_eq_false_2 (c ∈ ids)) by done. simpl.
      destruct (decide (c ∈ except)) as [E2|E2].
      * rewrite bool_decide_eq_true_2 by done.
        rewrite IH, elem_of_cons. naive_solver.
      * rewrite bool_decide_eq_false_2 by done.
        rewrite IH, elem_of_app, list_elem_of_singleton, elem_of_cons.
        naive_solver.
Qed.

Lemma collect_NoDup (except ids cands : list jsstr) :
  NoDup ids → NoDup (collect except ids cands).
Proof.
  revert ids. induction cands as [|c cands IH]; intros ids Hids; simpl; [done|].
  destruct (bool_decide (c ∈ ids)) eqn:E1; simpl; [by apply IH|].
  apply bool_decide_eq_false in E1.
  destruct (bool_decide (c ∈ except)); [by apply IH|].
  apply IH. apply NoDup_app. split; [done|]. split; [|apply NoDup_singleton].
  intros x Hx ->%list_elem_of_singleton. done.
Qed.

(** A broadcast to a room whose only member is [s] reaches [s] alone. *)
Lemma collect_singleton (except : list jsstr) (s : jsstr) :
  s ∉ except → collect except [] [s] = [s].
Proof.
  intros H. cbn [collect].
  rewrite (bool_decide_eq_false_2 (s ∈ [])) by apply not_elem_of_nil.
  by rewrite (bool_decide_eq_false_2 (s ∈ except)).
Qed.

(** ** Room names *)

Lemma roomName_length (a b : jsstr) :
  length (roomName a b) = (6 + length a + length b)%nat.
Proof. unfold roomName. rewrite !length_app. simpl. lia. Qed.

Lemma roomName_inj (a b c d : jsstr) :
  length a = length c → roomName a b = roomName c d → a = c ∧ b = d.
Proof.
  unfold roomName. intros Hlen H.
  apply app_inv_head in H. apply app_inj_1 in H as [-> H]; [|done].
  by apply app_inv_head in H.
Qed.

Lemma roomName_truthy (a b : jsstr) : truthy (JStr (roomName a b)) = true.
Proof. reflexivity. Qed.

(** ** The invariant *)

Lemma Inv_ext (n : nat) (st st' : State) :
  sockets st' = sockets st → rooms st' = rooms st →
  waitingQueue st' = waitingQueue st → activeRooms st' = activeRooms st →
  Inv n st → Inv n st'.
Proof.
  destruct st, st'; simpl; intros -> -> -> -> [ ]; by constructor.
Qed.

Lemma Inv_init (n : nat) : Inv n init.
Proof.
  constructor; simpl.
  - apply NoDup_nil_2.
  - intros ? H. by apply elem_of_nil in H.
  - apply NoDup_nil_2.
  - intros ? H. by apply elem_of_nil in H.
  - apply NoDup_nil_2.
  - done.
  - intros ? H. by apply elem_of_nil in H.
  - intros r m H. unfold members in H. rewrite lookup_empty in H.
    by apply elem_of_nil in H.
  - intros r. unfold members. rewrite lookup_empty. apply NoDup_nil_2.
  - done.
Qed.

Section invariant.
Context (n : nat) (st : State) (HI : Inv n st).

(** The room of a registered socket is not the id of any socket. *)
Lemma room_not_socket (a r s : jsstr) :
  mget a (activeRooms st) = Some r → s ∈ sockets st → r ≠ s.
Proof using HI.
  intros Ha Hs ->.
  destruct (inv_paired n st HI a s Ha) as (Ha' & b & _ & Hb & _ & Hr).
  pose proof (inv_length n st HI _ Hs) as Ls.
  pose proof (inv_length n st HI _ Ha') as La.
  pose proof (inv_length n st HI _ Hb) as Lb.
  destruct Hr as [Hr|Hr]; apply (f_equal length) in Hr;
    rewrite roomName_length in Hr; lia.
Qed.

(** A room of the registry has exactly two sockets. *)
Lemma paired_two (a b r x : jsstr) :
  mget a (activeRooms st) = Some r →
  b ∈ sockets st → r = roomName a b ∨ r = roomName b a →
  mget x (activeRooms st) = Some r → x = a ∨ x = b.
Proof using HI.
  intros Ha Hb Hr Hx.
  destruct (inv_paired n st HI a r Ha) as (Ha' & _).
  destruct (inv_paired n st HI x r Hx) as (Hx' & y & _ & Hy & _ & Hr').
  pose proof (inv_length n st HI _ Ha') as La.
  pose proof (inv_length n st HI _ Hb) as Lb.
  pose proof (inv_length n st HI _ Hx') as Lx.
  pose proof (inv_length n st HI _ Hy) as Ly.
  destruct Hr as [->| ->], Hr' as [Hr'|Hr'];
    apply roomName_inj in Hr' as [? ?]; subst; auto; congruence.
Qed.

(** What [skip] and [disconnect] find for a socket of the registry. *)
Lemma paired_partner (a r : jsstr) :
  mget a (activeRooms st) = Some r →
  ∃ b, found (findPartner a r (activeRooms st)) = Some b
       ∧ partnerOf st a = Some b
       ∧ b ≠ a ∧ b ∈ sockets st ∧ mget b (activeRooms st) = Some r
       ∧ (r = roomName a b ∨ r = roomName b a)
       ∧ truthy (JStr r) = true
       ∧ (∀ x, mget x (activeRooms st) = Some r → x = a ∨ x = b).
Proof using HI.
  intros Ha.
  destruct (inv_paired n st HI a r Ha) as (Ha' & b & Hne & Hb & Hbr & Hr).
  pose proof (paired_two a b r) as Htwo.
  assert (Ht : truthy (JStr r) = true) by (by destruct Hr as [->| ->]).
  assert (Hfind : findPartner a r (activeRooms st) = Some b).
  { unfold findPartner.
    destruct (List.find _ (activeRooms st)) as [[k v]|] eqn:E.
    - apply find_some in E as [Hin Hp]. simpl in Hp.
      apply andb_true_iff in Hp as [Hv Hk].
      apply bool_decide_eq_true in Hv. subst v.
      apply negb_true_iff, bool_decide_eq_false in Hk.
      apply list_elem_of_In, elem_mget in Hin; [|apply (inv_keys n st HI)].
      simpl. f_equal. destruct (Htwo k Ha Hb Hr Hin); congruence.
    - exfalso. apply mget_elem, list_elem_of_In in Hbr.
      apply (find_none _ _ E) in Hbr. simpl in Hbr.
      rewrite bool_decide_eq_true_2 in Hbr by done.
      rewrite bool_decide_eq_false_2 in Hbr by done. done. }
  assert (Hb' : truthy (JStr b) = true).
  { pose proof (inv_length n st HI _ Ha') as La.
    pose proof (inv_length n st HI _ Hb) as Lb.
    destruct b as [|c b]; [|done]. destruct a; [done|]. simpl in *. lia. }
  exists b. unfold partnerOf. rewrite Ha, Ht, Hfind. unfold found.
  rewrite Hb'. repeat split; try done. intros x. by apply Htwo.
Qed.

Lemma queued_not_paired (q : jsstr) :
  q ∈ waitingQueue st → mget q (activeRooms st) = None.
Proof using HI. intros H. by apply (inv_queued n st HI). Qed.
End invariant.

Lemma elem_of_members_join (s r r' m : jsstr) (rs : gmap jsstr (list jsstr)) :
  m ∈ members (socket_join s r rs) r' ↔ m ∈ members rs r' ∨ (r = r' ∧ m = s).
Proof.
  rewrite members_join. destruct (decide (r = r')) as [->|Hne].
  - destruct (decide (s ∈ members rs r')) as [Hin|Hout].
    + rewrite bool_decide_eq_true_2 by done. naive_solver.
    + rewrite bool_decide_eq_false_2 by done.
      rewrite elem_of_app, list_elem_of_singleton. naive_solver.
  - naive_solver.
Qed.

Lemma members_join_NoDup (s r r' : jsstr) (rs : gmap jsstr (list jsstr)) :
  NoDup (members rs r') → NoDup (members (socket_join s r rs) r').
Proof.
  intros H. rewrite members_join. destruct (decide (r = r')) as [->|Hne]; [|done].
  destruct (decide (s ∈ members rs r')) as [Hin|Hout].
  - by rewrite bool_decide_eq_true_2.
  - rewrite bool_decide_eq_false_2 by done.
    apply NoDup_app. split; [done|]. split; [|apply NoDup_singleton].
    intros x Hx ->%list_elem_of_singleton. done.
Qed.

Lemma members_join_other (s r r' : jsstr) (rs : gmap jsstr (list jsstr)) :
  r ≠ r' → members (socket_join s r rs) r' = members rs r'.
Proof. intros H. rewrite members_join. by rewrite decide_False. Qed.

Section preservation.
Context (n : nat).

(** No socket is in the room named by an id that is not connected. *)
Lemma fresh_room_empty (st : State) (socket : jsstr) :
  Inv n st → length socket = n → socket ∉ sockets st →
  members (rooms st) socket = [].
Proof.
  intros HI Hlen Hfresh.
  destruct (members (rooms st) socket) as [|m ms] eqn:E; [done|].
  exfalso.
  destruct (inv_members n st HI socket m) as (Hm & [->|(o & Ho & Hr)]).
  { rewrite E. left. }
  - done.
  - pose proof (inv_length n st HI _ Hm) as Lm.
    destruct Hr as [Hr|Hr]; apply (f_equal length) in Hr;
      rewrite roomName_length in Hr; lia.
Qed.

Lemma Inv_connection (st : State) (socket : jsstr) :
  Inv n st → length socket = n → socket ∉ sockets st →
  Inv n (connection socket st).1.
Proof.
  intros HI Hlen Hfresh. pose proof HI as [H1 H2 H3 H4 H5 H6 H7 H8 H9 H10].
  constructor; simpl.
  - apply NoDup_app. split; [done|]. split; [|apply NoDup_singleton].
    intros x Hx ->%list_elem_of_singleton. done.
  - intros s [Hs| ->%list_elem_of_singleton]%elem_of_app; auto.
  - done.
  - intros q Hq. destruct (H4 q Hq). split; [|done].
    apply elem_of_app. by left.
  - done.
  - intros a r Ha. destruct (H6 a r Ha) as (Ha' & b & ? & ? & ? & ?).
    split; [apply elem_of_app; by left|].
    exists b. repeat split; try done. apply elem_of_app. by left.
  - intros s [Hs| ->%list_elem_of_singleton]%elem_of_app.
    + rewrite members_join_other by congruence. by apply H7.
    + rewrite members_join, decide_True by done.
      rewrite (fresh_room_empty st socket HI Hlen Hfresh).
      rewrite bool_decide_eq_false_2 by apply not_elem_of_nil. done.
  - intros r m [Hm|[-> ->]]%elem_of_members_join.
    + destruct (H8 r m Hm) as [? ?]. split; [|done].
      apply elem_of_app. by left.
    + split; [|by left]. apply elem_of_app. right. left.
  - intros r. by apply members_join_NoDup.
  - intros a r Ha. apply elem_of_members_join. left. by apply H10.
Qed.

(** Events that touch neither the queue, the registry nor the rooms. *)
Lemma Inv_exchange_keys (st : State) (socket : jsstr) (k : JsVal) :
  Inv n st → Inv n (exchange_keys socket k st).1.
Proof.
  intros HI. eapply Inv_ext; [| | | |exact HI]; unfold exchange_keys;
    destruct k as [| | | | |[|c key]| |]; try done; simpl;
    destruct (mget socket (activeRooms st)) as [[|? ?]|]; done.
Qed.

Lemma Inv_send_message (st : State) (now now' : Z) (socket : jsstr)
    (data : SendData) :
  Inv n st → Inv n (send_message now now' socket data st).1.
Proof.
  intros HI. eapply Inv_ext; [| | | |exact HI]; unfold send_message;
    destruct (checkMessageRateLimit _ _ _) as [[|] ?]; done.
Qed.
End preservation.

(** ** The three outcomes of [join_queue] *)

Lemma mhas_false {V : Type} (k : jsstr) (m : list (jsstr * V)) :
  mhas k m = false ↔ mget k m = None.
Proof. unfold mhas. destruct (mget k m); split; done. Qed.

Lemma join_queue_ignored (socket : jsstr) (data : JoinData) (st : State) :
  mhas socket (activeRooms st) = true ∨ socket ∈ waitingQueue st →
  join_queue socket data st = (named_as socket data st, []).
Proof.
  intros H. unfold join_queue. fold (named_as socket data st).
  change (activeRooms (named_as socket data st)) with (activeRooms st).
  change (waitingQueue (named_as socket data st)) with (waitingQueue st).
  destruct (mhas socket (activeRooms st)) eqn:E; [done|].
  destruct H as [?|H]; [done|]. by rewrite bool_decide_eq_true_2.
Qed.

Lemma join_queue_enqueue (socket : jsstr) (data : JoinData) (st : State) :
  mget socket (activeRooms st) = None → waitingQueue st = [] →
  join_queue socket data st
  = (set_waitingQueue [socket] (named_as socket data st), []).
Proof.
  intros Hget Hq. unfold join_queue. fold (named_as socket data st).
  change (activeRooms (named_as socket data st)) with (activeRooms st).
  change (waitingQueue (named_as socket data st)) with (waitingQueue st).
  apply mhas_false in Hget. rewrite Hget, Hq.
  rewrite bool_decide_eq_false_2 by apply not_elem_of_nil. done.
Qed.

Lemma join_queue_pair (socket partnerSocket : jsstr) (rest : list jsstr)
    (data : JoinData) (st : State) :
  mget socket (activeRooms st) = None →
  socket ∉ waitingQueue st →
  waitingQueue st = partnerSocket :: rest →
  let st' := paired_with socket partnerSocket rest (named_as socket data st) in
  join_queue socket data st
  = (st',
     io_to st' (JStr socket)
       (chat_start (roomName socket partnerSocket)
          (username (data_of st' partnerSocket))
          (profilePic (data_of st' partnerSocket)))
     ++ io_to st' (JStr partnerSocket)
       (chat_start (roomName socket partnerSocket)
          (username (data_of st' socket))
          (profilePic (data_of st' socket)))).
Proof.
  intros Hget Hout Hq st'. unfold join_queue. fold (named_as socket data st).
  change (activeRooms (named_as socket data st)) with (activeRooms st).
  change (waitingQueue (named_as socket data st)) with (waitingQueue st).
  apply mhas_false in Hget. rewrite Hget.
  rewrite bool_decide_eq_false_2 by done. rewrite Hq. reflexivity.
Qed.

Section preservation_join.
Context (n : nat).

Lemma Inv_named_as (st : State) (socket : jsstr) (data : JoinData) :
  Inv n st → Inv n (named_as socket data st).
Proof. intros HI. by eapply Inv_ext; [| | | |exact HI]. Qed.

Lemma Inv_enqueue (st : State) (socket : jsstr) :
  Inv n st → socket ∈ sockets st → mget socket (activeRooms st) = None →
  socket ∉ waitingQueue st →
  Inv n (set_waitingQueue (waitingQueue st ++ [socket]) st).
Proof.
  intros [H1 H2 H3 H4 H5 H6 H7 H8 H9 H10] Hs Hget Hout.
  constructor; simpl; try done.
  - apply NoDup_app. split; [done|]. split; [|apply NoDup_singleton].
    intros x Hx ->%list_elem_of_singleton. done.
  - intros q [Hq| ->%list_elem_of_singleton]%elem_of_app; auto.
Qed.

Lemma Inv_paired_with (st : State) (socket partnerSocket : jsstr)
    (rest : list jsstr) :
  Inv n st → socket ∈ sockets st → mget socket (activeRooms st) = None →
  socket ∉ waitingQueue st → waitingQueue st = partnerSocket :: rest →
  Inv n (paired_with socket partnerSocket rest st).
Proof.
  intros HI Hs Hget Hout Hq.
  pose proof HI as [H1 H2 H3 H4 H5 H6 H7 H8 H9 H10].
  rewrite Hq in H3, H4, Hout.
  apply NoDup_cons in H3 as [Hp3 H3].
  apply not_elem_of_cons in Hout as [Hne Hout].
  destruct (H4 partnerSocket) as [Hp Hpget]; [left|].
  pose proof (H2 _ Hs) as Ls. pose proof (H2 _ Hp) as Lp.
  set (r := roomName socket partnerSocket).
  assert (Hfresh : ∀ x, mget x (activeRooms st) ≠ Some r).
  { intros x Hx.
    destruct (paired_partner n st HI x r Hx) as (b & _ & _ & _ & Hb & Hbr & Hr & _).
    destruct (H6 x r Hx) as (Hx' & _).
    pose proof (H2 _ Hx') as Lx. pose proof (H2 _ Hb) as Lb.
    destruct Hr as [Hr|Hr]; apply roomName_inj in Hr as [? ?];
      try congruence; subst; congruence. }
  assert (Hrs : ∀ s, s ∈ sockets st → r ≠ s).
  { intros s Hs' Hr. apply (f_equal length) in Hr. unfold r in Hr.
    rewrite roomName_length, (H2 _ Hs') in Hr. lia. }
  assert (Hmget : ∀ x, mget x (activeRooms (paired_with socket partnerSocket rest st))
            = if decide (x = socket ∨ x = partnerSocket) then Some r
              else mget x (activeRooms st)).
  { intros x. unfold paired_with. simpl. rewrite !mget_mset. fold r.
    destruct (decide (partnerSocket = x)) as [->|?];
      [by rewrite decide_True by (by right)|].
    destruct (decide (socket = x)) as [->|?];
      [by rewrite decide_True by (by left)|].
    rewrite decide_False; [done|]. intros [?|?]; congruence. }
  constructor; try rewrite Hmget; unfold paired_with; simpl; fold r; try done.
  - intros q Hq'. destruct (H4 q) as [? ?]; [by right|]. split; [done|].
    rewrite Hmget, decide_False; [done|].
    intros [->| ->]; done.
  - by do 2 apply mset_NoDup.
  - intros a r'. rewrite Hmget. case_decide as Ha.
    + intros [= <-]. destruct Ha as [->| ->].
      * split; [done|]. exists partnerSocket. rewrite Hmget.
        rewrite decide_True by (by right). repeat split; auto.
      * split; [done|]. exists socket. rewrite Hmget.
        rewrite decide_True by (by left). repeat split; auto.
    + intros Hr'. destruct (H6 a r' Hr') as (Ha' & b & ? & ? & Hb & ?).
      split; [done|]. exists b. rewrite Hmget, decide_False; [done|].
      intros [->| ->]; congruence.
  - intros s Hs'. rewrite !members_join_other by auto. by apply H7.
  - intros r' m [[Hm|[<- ->]]%elem_of_members_join|[<- ->]]%elem_of_members_join.
    + by apply H8.
    + split; [done|]. right. exists partnerSocket. auto.
    + split; [done|]. right. exists socket. auto.
  - intros r'. by do 2 apply members_join_NoDup.
  - intros a r'. rewrite Hmget. case_decide as Ha.
    + intros [= <-]. rewrite !elem_of_members_join.
      destruct Ha as [->| ->]; auto.
    + intros Hr'. rewrite !elem_of_members_join. left. left. by apply H10.
Qed.

Lemma Inv_join_queue (st : State) (socket : jsstr) (data : JoinData) :
  Inv n st → socket ∈ sockets st → Inv n (join_queue socket data st).1.
Proof.
  intros HI Hs.
  destruct (mget socket (activeRooms st)) as [r|] eqn:Hget.
  { rewrite join_queue_ignored; [by apply Inv_named_as|].
    left. unfold mhas. by rewrite Hget. }
  destruct (decide (socket ∈ waitingQueue st)) as [Hin|Hout].
  { rewrite join_queue_ignored; [by apply Inv_named_as|]. by right. }
  destruct (waitingQueue st) as [|p rest] eqn:Hq.
  - rewrite join_queue_enqueue by done. simpl.
    apply (Inv_named_as _ socket data) in HI.
    apply (Inv_enqueue _ socket) in HI; try done.
    + simpl in HI. by rewrite Hq in HI.
    + simpl. by rewrite Hq.
  - rewrite (join_queue_pair socket p rest) by (done || by rewrite Hq).
    simpl. apply Inv_paired_with; try done.
    + by apply Inv_named_as.
    + simpl. by rewrite Hq.
Qed.
End preservation_join.

(** ** The outcomes of [skip] and [disconnect] *)

Lemma skip_unpaired (socket : jsstr) (st : State) :
  mget socket (activeRooms st) = None →
  skip socket st = (set_waitingQueue (without socket (waitingQueue st)) st, []).
Proof. intros H. unfold skip. by rewrite H. Qed.

Lemma skip_paired (socket r b : jsstr) (st : State) :
  mget socket (activeRooms st) = Some r → truthy (JStr r) = true →
  found (findPartner socket r (activeRooms st)) = Some b →
  skip socket st
  = (set_waitingQueue (without socket (waitingQueue st))
       (set_rooms (socket_leave socket r (rooms st)) (dissolved socket b st)),
     socket_to st socket (JStr r) partner_disconnected).
Proof. intros H Ht Hf. unfold skip. rewrite H, Ht. simpl. by rewrite Hf. Qed.

Lemma disconnect_unpaired (socket : jsstr) (st : State) :
  mget socket (activeRooms st) = None →
  disconnect socket st
  = (set_messageCounts (delete socket (messageCounts st))
       (set_publicKeys (delete socket (publicKeys st))
          (set_waitingQueue (without socket (waitingQueue st))
             (closed socket st))), []).
Proof. intros H. unfold disconnect. simpl. by rewrite H. Qed.

Lemma disconnect_paired (socket r b : jsstr) (st : State) :
  mget socket (activeRooms st) = Some r → truthy (JStr r) = true →
  found (findPartner socket r (activeRooms st)) = Some b →
  disconnect socket st
  = (set_messageCounts (delete socket (messageCounts st))
       (set_publicKeys (delete b (delete socket (publicKeys st)))
          (set_waitingQueue (without socket (waitingQueue st))
             (closed socket (dissolved socket b st)))),
     socket_to (closed socket st) socket (JStr r) partner_disconnected).
Proof.
  intros H Ht Hf. destruct r as [|c r]; [done|].
  unfold disconnect. simpl. rewrite H. simpl. by rewrite Hf.
Qed.

Section preservation_leave.
Context (n : nat).

Lemma Inv_dequeue (st : State) (socket : jsstr) :
  Inv n st → Inv n (set_waitingQueue (without socket (waitingQueue st)) st).
Proof.
  intros [H1 H2 H3 H4 H5 H6 H7 H8 H9 H10]. constructor; simpl; try done.
  - by apply without_NoDup.
  - intros q [Hq _]%elem_of_without. by apply H4.
Qed.

Lemma Inv_dissolved (st : State) (socket r : jsstr) :
  Inv n st → mget socket (activeRooms st) = Some r →
  ∃ b, partnerOf st socket = Some b
       ∧ found (findPartner socket r (activeRooms st)) = Some b
       ∧ Inv n (dissolved socket b st)
       ∧ mget socket (activeRooms (dissolved socket b st)) = None
       ∧ mget b (activeRooms (dissolved socket b st)) = None.
Proof.
  intros HI Hget.
  destruct (paired_partner n st HI socket r Hget)
    as (b & Hf & Hp & Hne & Hb & Hbr & Hr & _ & Htwo).
  exists b. split; [done|]. split; [done|].
  assert (Hm : ∀ x, mget x (activeRooms (dissolved socket b st))
            = if decide (x = socket ∨ x = b) then None
              else mget x (activeRooms st)).
  { intros x. unfold dissolved. simpl. rewrite !mget_mdel.
    destruct (decide (b = x)) as [->|?];
      [by rewrite decide_True by (by right)|].
    destruct (decide (socket = x)) as [->|?];
      [by rewrite decide_True by (by left)|].
    rewrite decide_False; [done|]. intros [?|?]; congruence. }
  split; [|split; rewrite Hm; apply decide_True; auto].
  pose proof HI as [H1 H2 H3 H4 H5 H6 H7 H8 H9 H10].
  constructor; try rewrite Hm; unfold dissolved; simpl; try done.
  - intros q Hq. destruct (H4 q Hq) as [? Hn]. split; [done|].
    unfold dissolved in Hm. simpl in Hm. rewrite Hm, Hn. by case_decide.
  - by do 2 apply mdel_NoDup.
  - intros a r'. unfold dissolved in Hm. simpl in Hm. rewrite Hm.
    case_decide as Ha; [done|]. intros Ha'.
    destruct (H6 a r' Ha') as (? & y & ? & ? & Hy & ?).
    split; [done|]. exists y. rewrite Hm, decide_False; [done|].
    intros [->| ->].
    + assert (r' = r) as -> by congruence.
      destruct (Htwo a Ha'); subst; apply Ha; auto.
    + assert (r' = r) as -> by congruence.
      destruct (Htwo a Ha'); subst; apply Ha; auto.
  - intros a r'. unfold dissolved in Hm. simpl in Hm. rewrite Hm.
    case_decide; [done|]. apply H10.
Qed.

Lemma Inv_leave (st : State) (socket r : jsstr) :
  Inv n st → mget socket (activeRooms st) = None →
  (∀ s, s ∈ sockets st → r ≠ s) →
  Inv n (set_rooms (socket_leave socket r (rooms st)) st).
Proof.
  intros [H1 H2 H3 H4 H5 H6 H7 H8 H9 H10] Hget Hr.
  constructor; simpl; try done.
  - intros s Hs. rewrite members_leave, decide_False by auto. by apply H7.
  - intros r' m. rewrite members_leave. case_decide as E; [subst r'|apply H8].
    intros [Hm _]%elem_of_without. by apply H8.
  - intros r'. rewrite members_leave. case_decide; [subst r'|apply H9].
    apply without_NoDup, H9.
  - intros a r' Ha. rewrite members_leave. case_decide; [subst r'|by apply H10].
    apply elem_of_without. split; [by apply H10|]. congruence.
Qed.

Lemma Inv_closed (st : State) (socket : jsstr) :
  Inv n st → mget socket (activeRooms st) = None →
  socket ∉ waitingQueue st →
  Inv n (closed socket st).
Proof.
  intros [H1 H2 H3 H4 H5 H6 H7 H8 H9 H10] Hget Hq.
  constructor; simpl; try done.
  - by apply without_NoDup.
  - intros s [Hs _]%elem_of_without. by apply H2.
  - intros q Hq'. destruct (H4 q Hq') as [? ?]. split; [|done].
    apply elem_of_without. split; [done|]. congruence.
  - intros a r Ha. destruct (H6 a r Ha) as (? & b & ? & ? & Hb & ?).
    split; [apply elem_of_without; split; [done|congruence]|].
    exists b. repeat split; try done.
    apply elem_of_without; split; [done|congruence].
  - intros s [Hs Hne]%elem_of_without. rewrite members_leave_all, (H7 s Hs).
    apply without_absent. by intros ->%list_elem_of_singleton.
  - intros r m. rewrite members_leave_all. intros [Hm Hne]%elem_of_without.
    destruct (H8 r m Hm) as [? ?]. split; [|done]. by apply elem_of_without.
  - intros r. rewrite members_leave_all. apply without_NoDup, H9.
  - intros a r Ha. rewrite members_leave_all. apply elem_of_without.
    split; [by apply H10|congruence].
Qed.

Lemma Inv_skip (st : State) (socket : jsstr) :
  Inv n st → Inv n (skip socket st).1.
Proof.
  intros HI. destruct (mget socket (activeRooms st)) as [r|] eqn:Hget.
  - destruct (Inv_dissolved st socket r HI Hget) as (b & _ & Hf & HI' & Hs & _).
    destruct (paired_partner n st HI socket r Hget) as (? & _ & _ & _ & _ & _ & _ & Ht & _).
    rewrite (skip_paired socket r b) by done. simpl.
    apply (Inv_leave _ socket r) in HI'; [|done|].
    + by apply (Inv_dequeue _ socket) in HI'.
    + intros s Hs'. by apply (room_not_socket n st HI socket).
  - rewrite skip_unpaired by done. by apply Inv_dequeue.
Qed.

Lemma Inv_disconnect (st : State) (socket : jsstr) :
  Inv n st → Inv n (disconnect socket st).1.
Proof.
  intros HI. destruct (mget socket (activeRooms st)) as [r|] eqn:Hget.
  - destruct (Inv_dissolved st socket r HI Hget) as (b & _ & Hf & HI' & Hs & _).
    destruct (paired_partner n st HI socket r Hget) as (? & _ & _ & _ & _ & _ & _ & Ht & _).
    rewrite (disconnect_paired socket r b) by done. simpl.
    apply (Inv_dequeue _ socket) in HI'.
    apply (Inv_closed _ socket) in HI'; [|done|].
    + by eapply Inv_ext; [| | | |exact HI'].
    + simpl. intros [_ ?]%elem_of_without. done.
  - rewrite disconnect_unpaired by done. simpl.
    apply (Inv_dequeue _ socket) in HI.
    apply (Inv_closed _ socket) in HI; [|done|].
    + by eapply Inv_ext; [| | | |exact HI].
    + simpl. intros [_ ?]%elem_of_without. done.
Qed.

Lemma Inv_step (st : State) (i : Input) :
  Inv n st → event_ok n i st = true → Inv n (step i st).1.
Proof.
  intros HI Hok. unfold step, event_ok in *.
  destruct (event i); try exact HI.
  - apply andb_true_iff in Hok as [Hlen Hfresh].
    apply bool_decide_eq_true in Hlen.
    apply negb_true_iff, bool_decide_eq_false in Hfresh.
    by apply Inv_connection.
  - apply bool_decide_eq_true in Hok. by apply Inv_join_queue.
  - by apply Inv_exchange_keys.
  - by apply Inv_send_message.
  - by apply Inv_skip.
  - by apply Inv_disconnect.
Qed.

Lemma Inv_run (inputs : list Input) (st : State) :
  Inv n st → run_ok n st inputs = true → Inv n (run st inputs).1.
Proof.
  revert st. induction inputs as [|i inputs IH]; intros st HI Hok; [done|].
  simpl in Hok. apply andb_true_iff in Hok as [Hi Hok].
  simpl. pose proof (Inv_step st i HI Hi) as HI1.
  destruct (step i st) as [st1 out1]. simpl in *.
  specialize (IH st1 HI1 Hok). by destruct (run st1 inputs).
Qed.

Lemma reachable_Inv (st : State) : reachable n st → Inv n st.
Proof.
  intros (inputs & Hok & <-). apply Inv_run; [apply Inv_init|done].
Qed.
End preservation_leave.

(** ** Who a broadcast reaches *)

Lemma collect_without (a : jsstr) (ids cands : list jsstr) :
  NoDup (ids ++ cands) →
  collect [a] ids cands = ids ++ without a cands.
Proof.
  revert ids. induction cands as [|c cands IH]; intros ids Hnd.
  - simpl. by rewrite app_nil_r.
  - assert (Hnd' : NoDup ((ids ++ [c]) ++ cands)) by (by rewrite <- app_assoc).
    apply NoDup_app in Hnd as (Hids & Hdisj & [Hc Hcands]%NoDup_cons).
    assert (Hcids : c ∉ ids) by (intros Hin; apply (Hdisj c Hin); left).
    assert (Hnd'' : NoDup (ids ++ cands)).
    { apply NoDup_app. repeat split; try done.
      intros x Hx Hx'. apply (Hdisj x Hx). by right. }
    cbn [collect]. unfold without. cbn [List.filter]. fold (without a cands).
    rewrite (bool_decide_eq_false_2 (c ∈ ids)) by done.
    cbn [orb]. destruct (decide (c = a)) as [->|Hne].
    + rewrite (bool_decide_eq_true_2 (a ∈ [a])) by left.
      rewrite (bool_decide_eq_true_2 (a = a)) by done.
      cbn [negb]. by apply IH.
    + rewrite (bool_decide_eq_false_2 (c ∈ [a]))
        by (by intros ->%list_elem_of_singleton).
      rewrite (bool_decide_eq_false_2 (c = a)) by done. cbn [negb].
      rewrite IH by done. by rewrite <- app_assoc.
Qed.

Lemma NoDup_all_same (b : jsstr) (l : list jsstr) :
  NoDup l → (∀ x, x ∈ l → x = b) → b ∈ l → l = [b].
Proof.
  intros Hnd Hall Hb. destruct l as [|x l]; [by apply elem_of_nil in Hb|].
  assert (x = b) as -> by (apply Hall; left).
  apply NoDup_cons in Hnd as [Hx _]. f_equal.
  destruct l as [|y l]; [done|]. exfalso. apply Hx.
  assert (y = b) as -> by (apply Hall; right; left). left.
Qed.

Section broadcasts.
Context (n : nat) (st : State) (HI : Inv n st).

(** [io.to(socket.id)] reaches that socket and no other. *)
Lemma io_to_socket (s : jsstr) (ev : OutEvent) :
  s ∈ sockets st → io_to st (JStr s) ev = [(s, ev)].
Proof using HI.
  intros Hs. unfold io_to, recipients, to_targets.
  cbn [flat_map members_of]. rewrite (inv_own n st HI s Hs).
  cbn [app]. rewrite collect_singleton by apply not_elem_of_nil. done.
Qed.

(** [socket.to(roomId)] on the room of the registry reaches the
    partner and no other. *)
Lemma room_recipients (a r b : jsstr) :
  mget a (activeRooms st) = Some r → partnerOf st a = Some b →
  recipients st (to_targets (JStr r)) [a] = [b].
Proof using HI.
  intros Ha Hp.
  destruct (paired_partner n st HI a r Ha)
    as (b' & _ & Hp' & Hne & Hb & Hbr & Hr & _ & _).
  assert (b' = b) as -> by congruence.
  destruct (inv_paired n st HI a r Ha) as (Ha' & _).
  pose proof (inv_length n st HI _ Ha') as La.
  pose proof (inv_length n st HI _ Hb) as Lb.
  unfold recipients, to_targets. cbn [flat_map members_of].
  rewrite app_nil_r.
  rewrite collect_without by (cbn [app]; apply (inv_nodup n st HI)).
  cbn [app]. apply NoDup_all_same.
  - apply without_NoDup, (inv_nodup n st HI).
  - intros x [Hx Hxa]%elem_of_without.
    destruct (inv_members n st HI r x Hx) as (Hx' & [->|(o & Lo & Hro)]).
    { exfalso. by apply (room_not_socket n st HI a x x). }
    pose proof (inv_length n st HI _ Hx') as Lx.
    destruct Hr as [->| ->], Hro as [Hro|Hro];
      apply roomName_inj in Hro as [? ?]; congruence.
  - apply elem_of_without. split; [|done]. by apply (inv_joined n st HI).
Qed.
End broadcasts.

(** ** The registry *)

Lemma partnerOf_mget (st : State) (a b : jsstr) :
  partnerOf st a = Some b → ∃ r, mget a (activeRooms st) = Some r.
Proof. unfold partnerOf. destruct (mget a (activeRooms st)); [eauto|done]. Qed.

Lemma partnerOf_unpaired (st : State) (a : jsstr) :
  mget a (activeRooms st) = None → partnerOf st a = None.
Proof. unfold partnerOf. by intros ->. Qed.

Lemma partnerOf_sym (n : nat) (st : State) (a b : jsstr) :
  Inv n st → partnerOf st a = Some b → partnerOf st b = Some a.
Proof.
  intros HI Hp. destruct (partnerOf_mget st a b Hp) as [r Ha].
  destruct (paired_partner n st HI a r Ha)
    as (b' & _ & Hp' & Hne & _ & Hbr & _ & _ & _).
  assert (b' = b) as -> by congruence.
  destruct (paired_partner n st HI b r Hbr)
    as (a' & _ & Hpa & Hne' & _ & _ & _ & _ & Htwo).
  destruct (Htwo a Ha) as [->| ->]; done.
Qed.

(** When a room is dissolved, both of its sockets leave the registry and
    no other entry changes. *)
Lemma dissolved_registry (socket b x : jsstr) (st : State) :
  mget x (activeRooms (dissolved socket b st))
  = if decide (x = socket ∨ x = b) then None else mget x (activeRooms st).
Proof.
  unfold dissolved. simpl. rewrite !mget_mdel.
  destruct (decide (b = x)) as [->|?]; [by rewrite decide_True by (by right)|].
  destruct (decide (socket = x)) as [->|?]; [by rewrite decide_True by (by left)|].
  rewrite decide_False; [done|]. intros [?|?]; congruence.
Qed.

Lemma leave_registry (n : nat) (st st' : State) (a b : jsstr) :
  Inv n st → partnerOf st a = Some b →
  st' = (skip a st).1 ∨ st' = (disconnect a st).1 →
  activeRooms st' = activeRooms (dissolved a b st).
Proof.
  intros HI Hp Hst'. destruct (partnerOf_mget st a b Hp) as [r Ha].
  destruct (paired_partner n st HI a r Ha)
    as (b' & Hf & Hp' & _ & _ & _ & _ & Ht & _).
  assert (b' = b) as -> by congruence.
  destruct Hst' as [-> | ->].
  - by rewrite (skip_paired a r b).
  - by rewrite (disconnect_paired a r b).
Qed.

(** C3: in every state the server can reach, no socket is in the
    registry twice, every room of the registry is the room of exactly two
    sockets, each the partner of the other; and when one of them skips
    or disconnects, the handler takes both out of the registry, so that
    neither has a room or a partner afterwards, and leaves every other
    entry as it was. *)
Theorem registry_consistent (n : nat) (st : State) :
  reachable n st →
  NoDup (activeRooms st).*1
  ∧ (∀ a r, mget a (activeRooms st) = Some r →
       ∃ b, b ≠ a ∧ mget b (activeRooms st) = Some r
            ∧ partnerOf st a = Some b ∧ partnerOf st b = Some a
            ∧ ∀ x, mget x (activeRooms st) = Some r → x = a ∨ x = b)
  ∧ (∀ a b st', partnerOf st a = Some b →
       st' = (skip a st).1 ∨ st' = (disconnect a st).1 →
       mget a (activeRooms st') = None ∧ mget b (activeRooms st') = None
       ∧ partnerOf st' a = None ∧ partnerOf st' b = None
       ∧ ∀ x, x ≠ a → x ≠ b → mget x (activeRooms st') = mget x (activeRooms st)).
Proof.
  intros HI%reachable_Inv. split; [apply (inv_keys n st HI)|]. split.
  - intros a r Ha.
    destruct (paired_partner n st HI a r Ha)
      as (b & _ & Hp & Hne & _ & Hbr & _ & _ & Htwo).
    exists b. repeat split; try done. by apply (partnerOf_sym n st a b).
  - intros a b st' Hp Hst'.
    pose proof (leave_registry n st st' a b HI Hp Hst') as Hreg.
    assert (Ha : mget a (activeRooms st') = None).
    { rewrite Hreg, dissolved_registry. apply decide_True. by left. }
    assert (Hb : mget b (activeRooms st') = None).
    { rewrite Hreg, dissolved_registry. apply decide_True. by right. }
    repeat split; try done; try by apply partnerOf_unpaired.
    intros x Hxa Hxb. rewrite Hreg, dissolved_registry.
    apply decide_False. intros [?|?]; done.
Qed.

Lemma two_paired_reachable : reachable 1 (run init two_paired).1.
Proof. exists two_paired. split; [vm_compute|]; reflexivity. Defined.

Lemma registry_consistent_witness :
  mget sockA (activeRooms (skip sockA (run init two_paired).1).1) = None
  ∧ mget sockB (activeRooms (skip sockA (run init two_paired).1).1) = None.
Proof.
  destruct (registry_consistent 1 (run init two_paired).1 two_paired_reachable)
    as (_ & _ & H).
  destruct (H sockA sockB (skip sockA (run init two_paired).1).1)
    as (Ha & Hb & _); [vm_compute; reflexivity | by left |].
  split; [exact Ha | exact Hb].
Defined.

(** ** Joining the queue *)

(** C1 fails as stated: a [join_queue] from a socket that already waits
    is not without effect.  A waits as alice and sends [join_queue] again
    as bob: the state is not what it was, and B, joining next, is told
    that its partner is bob. *)
Lemma join_queue_ignored_renames :
  let st := (run init one_waiting).1 in
  sockA ∈ waitingQueue st
  ∧ (join_queue sockA (named "bob") st).1 ≠ st
  ∧ (run st [mkInput 2 sockB (JoinQueue (named "bea"))]).2
    = [(sockB, chat_start (roomName sockB sockA) (JStr (js "alice")) JUndefined);
       (sockA, chat_start (roomName sockB sockA) (JStr (js "bea")) JUndefined)]
  ∧ (run st [mkInput 2 sockA (JoinQueue (named "bob"));
             mkInput 2 sockB (JoinQueue (named "bea"))]).2
    = [(sockB, chat_start (roomName sockB sockA) (JStr (js "bob")) JUndefined);
       (sockA, chat_start (roomName sockB sockA) (JStr (js "bea")) JUndefined)].
Proof.
  split; [by_eval|]. split; [|split; vm_compute; reflexivity].
  intros H. apply (f_equal (λ s, username (data_of s sockA))) in H.
  vm_compute in H. discriminate H.
Qed.

Lemma data_of_named_as (socket x : jsstr) (data : JoinData) (st : State) :
  data_of (named_as socket data st) x
  = if decide (socket = x)
    then mkData (JStr (sanitizeUsername (jq_username data))) (jq_profilePic data)
    else data_of st x.
Proof.
  unfold data_of, named_as. simpl. rewrite lookup_insert.
  by destruct (decide (socket = x)).
Qed.

(** C1, as the code has it: a [join_queue] from a socket that is in a
    room or in the queue changes nothing but the name and the picture
    kept for that socket, and emits nothing; otherwise the socket at the
    head of the queue, if there is one, leaves the queue and is paired
    with the requester: both are in the registry under the new room,
    each the partner of the other, both are members of the transport
    room, and each is sent one [chat_start] with the room and the name
    and picture of the other; and with an empty queue the requester is
    appended to it. *)
Theorem join_queue_outcomes (n : nat) (st : State) (socket : jsstr)
    (data : JoinData) :
  reachable n st → socket ∈ sockets st →
  (mhas socket (activeRooms st) = true ∨ socket ∈ waitingQueue st →
     join_queue socket data st = (named_as socket data st, []))
  ∧ (mhas socket (activeRooms st) = false → socket ∉ waitingQueue st →
     ∀ partner rest, waitingQueue st = partner :: rest →
       let roomId := roomName socket partner in
       let st' := (join_queue socket data st).1 in
       st' = paired_with socket partner rest (named_as socket data st)
       ∧ waitingQueue st' = rest
       ∧ mget socket (activeRooms st') = Some roomId
       ∧ mget partner (activeRooms st') = Some roomId
       ∧ partnerOf st' socket = Some partner
       ∧ partnerOf st' partner = Some socket
       ∧ socket ∈ members (rooms st') roomId
       ∧ partner ∈ members (rooms st') roomId
       ∧ (join_queue socket data st).2
         = [(socket, chat_start roomId (username (data_of st partner))
                                       (profilePic (data_of st partner)));
            (partner, chat_start roomId
                        (JStr (sanitizeUsername (jq_username data)))
                        (jq_profilePic data))])
  ∧ (mhas socket (activeRooms st) = false → socket ∉ waitingQueue st →
     waitingQueue st = [] →
     join_queue socket data st
     = (set_waitingQueue (waitingQueue st ++ [socket])
          (named_as socket data st), [])).
Proof.
  intros HI%reachable_Inv Hs. split; [apply join_queue_ignored|]. split.
  - intros Hget%mhas_false Hout partner rest Hq roomId st'.
    pose proof (Inv_join_queue n st socket data HI Hs) as HI'.
    assert (Hp : partner ∈ sockets st ∧ partner ≠ socket).
    { split; [apply (inv_queued n st HI); rewrite Hq; left|].
      intros ->. apply Hout. rewrite Hq. left. }
    destruct Hp as [Hp Hne].
    assert (Hst' : st' = paired_with socket partner rest (named_as socket data st)).
    { unfold st'. by rewrite (join_queue_pair socket partner rest data st). }
    fold st' in HI'.
    assert (Ha : mget socket (activeRooms st') = Some roomId).
    { rewrite Hst'. unfold paired_with. simpl. rewrite !mget_mset.
      rewrite decide_False by done. by rewrite decide_True. }
    assert (Hb : mget partner (activeRooms st') = Some roomId).
    { rewrite Hst'. unfold paired_with. simpl. rewrite !mget_mset.
      by rewrite decide_True. }
    assert (Hpa : partnerOf st' socket = Some partner).
    { destruct (paired_partner n st' HI' socket roomId Ha)
        as (b & _ & Hb' & _ & _ & _ & _ & _ & Htwo).
      destruct (Htwo partner Hb) as [?| ->]; done. }
    split; [done|]. split; [by rewrite Hst'|]. split; [done|]. split; [done|].
    split; [done|]. split; [by apply (partnerOf_sym n st' socket partner)|].
    split; [by apply (inv_joined n st' HI')|].
    split; [by apply (inv_joined n st' HI')|].
    rewrite (join_queue_pair socket partner rest data st) by done.
    cbn [snd]. rewrite <- Hst'.
    rewrite (io_to_socket n st' HI') by (rewrite Hst'; exact Hs).
    rewrite (io_to_socket n st' HI') by (rewrite Hst'; exact Hp).
    assert (Hd : ∀ x, data_of st' x = data_of (named_as socket data st) x).
    { intros x. by rewrite Hst'. }
    rewrite !Hd, !data_of_named_as.
    rewrite decide_False by done. rewrite decide_True by done. reflexivity.
  - intros Hget%mhas_false Hout Hq.
    rewrite join_queue_enqueue by done. by rewrite Hq.
Qed.

Lemma one_waiting_reachable : reachable 1 (run init one_waiting).1.
Proof. exists one_waiting. split; [vm_compute|]; reflexivity. Defined.

Lemma join_queue_outcomes_witness :
  (join_queue sockB (named "bob") (run init one_waiting).1).2
  = [(sockB, chat_start (roomName sockB sockA) (JStr (js "alice")) JUndefined);
     (sockA, chat_start (roomName sockB sockA) (JStr (js "bob")) JUndefined)].
Proof.
  destruct (join_queue_outcomes 1 (run init one_waiting).1 sockB (named "bob")
              one_waiting_reachable) as (_ & H & _); [by_eval|].
  destruct (H eq_refl) with (partner := sockA) (rest := @nil jsstr)
    as (_ & _ & _ & _ & _ & _ & _ & _ & Hout);
    [by_eval | vm_compute; reflexivity |].
  exact Hout.
Defined.

(** ** Public keys *)

(** C8 fails as stated: the empty string is a string, and a key that is
    the empty string is not stored. *)
Lemma empty_key_not_stored :
  is_string (JStr []) = true
  ∧ exchange_keys sockA (JStr []) (run init two_paired).1
    = ((run init two_paired).1, [])
  ∧ publicKeys (exchange_keys sockA (JStr []) (run init two_paired).1).1 !! sockA
    = None.
Proof. split; [reflexivity|]. split; vm_compute; reflexivity. Qed.

Lemma join_queue_emits_chat_start (socket : jsstr) (data : JoinData) (st : State)
    (to : jsstr) (ev : OutEvent) :
  (to, ev) ∈ (join_queue socket data st).2 → ∃ r name pic, ev = chat_start r name pic.
Proof.
  unfold join_queue.
  destruct (mhas _ _); [by intros H%elem_of_nil|].
  destruct (bool_decide _); [by intros H%elem_of_nil|].
  destruct (waitingQueue _) as [|p rest]; [by intros H%elem_of_nil|].
  cbn [snd]. unfold io_to.
  intros [(id & [= _ ->] & _)%list_elem_of_fmap
         |(id & [= _ ->] & _)%list_elem_of_fmap]%elem_of_app; eauto.
Qed.

(** C8, for a key that is a non-empty string: the table holds that key
    for the sender, in place of any earlier one; a paired sender's key
    goes to the partner, and to the partner only, as
    [partner_public_key]; an unpaired sender's key goes to nobody; and a
    pairing sends no [partner_public_key], whatever keys are stored. *)
Theorem exchange_keys_outcomes (n : nat) (st : State) (socket key : jsstr) :
  reachable n st → key ≠ [] →
  publicKeys (exchange_keys socket (JStr key) st).1
  = <[socket := key]> (publicKeys st)
  ∧ (∀ p, partnerOf st socket = Some p →
       (exchange_keys socket (JStr key) st).2
       = [(p, partner_public_key (JStr key))])
  ∧ (mget socket (activeRooms st) = None →
       (exchange_keys socket (JStr key) st).2 = [])
  ∧ (∀ who data to k,
       (to, partner_public_key k) ∉ (join_queue who data st).2).
Proof.
  intros HI%reachable_Inv Hkey.
  destruct key as [|c key]; [done|]. clear Hkey.
  split; [|split; [|split]].
  - unfold exchange_keys. simpl.
    destruct (mget socket (activeRooms st)) as [[|? ?]|]; done.
  - intros p Hp. destruct (partnerOf_mget st socket p Hp) as [r Hr].
    destruct (paired_partner n st HI socket r Hr)
      as (_ & _ & _ & _ & _ & _ & _ & Ht & _).
    unfold exchange_keys. simpl. rewrite Hr.
    destruct r as [|c' r]; [done|]. simpl.
    unfold socket_to.
    change (recipients (set_publicKeys _ st)) with (recipients st).
    by rewrite (room_recipients n st HI socket (c' :: r) p).
  - intros Hnone. unfold exchange_keys. simpl. by rewrite Hnone.
  - intros who data to k H.
    apply join_queue_emits_chat_start in H as (? & ? & ? & ?). done.
Qed.

Lemma exchange_keys_outcomes_witness :
  (exchange_keys sockB (JStr (js "K")) (run init two_paired).1).2
  = [(sockA, partner_public_key (JStr (js "K")))].
Proof.
  destruct (exchange_keys_outcomes 1 (run init two_paired).1 sockB (js "K")
              two_paired_reachable) as (_ & H & _); [done|].
  apply H. vm_compute. reflexivity.
Defined.

(** C5 fails as stated: A and B are paired, B has published a key, A
    disconnects, and B's key is gone. *)
Lemma partner_disconnect_drops_key :
  let st := (run init key_published).1 in
  partnerOf st sockB = Some sockA
  ∧ publicKeys st !! sockB = Some (js "K")
  ∧ publicKeys (disconnect sockA st).1 !! sockB = None.
Proof. repeat split; vm_compute; reflexivity. Qed.

(** C5, as the code has it: when a socket disconnects, its key and
    the key of the partner found for it are deleted, and the key of
    every other socket stays as it is. *)
Theorem disconnect_public_keys (socket : jsstr) (st : State) :
  publicKeys (disconnect socket st).1 !! socket = None
  ∧ (∀ p, partnerOf st socket = Some p →
       publicKeys (disconnect socket st).1 !! p = None)
  ∧ (∀ other, other ≠ socket → partnerOf st socket ≠ Some other →
       publicKeys (disconnect socket st).1 !! other = publicKeys st !! other).
Proof.
  unfold partnerOf.
  destruct (mget socket (activeRooms st)) as [r|] eqn:Hr.
  - destruct (truthy (JStr r)) eqn:Ht.
    + destruct (found (findPartner socket r (activeRooms st))) as [b|] eqn:Hf.
      * rewrite (disconnect_paired socket r b) by done. simpl.
        split; [|split].
        -- rewrite lookup_delete. case_decide; [done|apply lookup_delete_eq].
        -- intros p [= <-]. apply lookup_delete_eq.
        -- intros other Hne Hnb. rewrite !lookup_delete_ne; [done|done|].
           congruence.
      * assert (Hd : publicKeys (disconnect socket st).1
                     = delete socket (publicKeys st)).
        { destruct r as [|c r]; [done|]. unfold disconnect. simpl.
          rewrite Hr. simpl. by rewrite Hf. }
        rewrite Hd. split; [apply lookup_delete_eq|]. split; [done|].
        intros other Hne _. by rewrite lookup_delete_ne.
    + assert (Hd : publicKeys (disconnect socket st).1
                   = delete socket (publicKeys st)).
      { destruct r as [|c r]; [|done]. unfold disconnect. simpl.
        by rewrite Hr. }
      rewrite Hd. split; [apply lookup_delete_eq|]. split; [done|].
      intros other Hne _. by rewrite lookup_delete_ne.
  - rewrite disconnect_unpaired by done. simpl.
    split; [apply lookup_delete_eq|]. split; [done|].
    intros other Hne _. by rewrite lookup_delete_ne.
Qed.

Lemma disconnect_public_keys_witness :
  publicKeys (disconnect sockA (run init key_published).1).1 !! sockB = None
  ∧ publicKeys (disconnect sockC (run init key_published).1).1 !! sockB
    = Some (js "K").
Proof.
  split.
  - destruct (disconnect_public_keys sockA (run init key_published).1)
      as (_ & H & _).
    apply H. vm_compute. reflexivity.
  - destruct (disconnect_public_keys sockC (run init key_published).1)
      as (_ & _ & H).
    rewrite H; [vm_compute; reflexivity | by_eval | vm_compute; discriminate].
Defined.

(** ** Relaying messages *)

(** C4 fails as stated: A and B are connected and neither is paired; A
    sends a message whose [roomId] is the id of B, and B receives it. *)
Lemma unpaired_sender_is_relayed :
  let st := (run init two_idle).1 in
  let data := text_to (JStr sockB) "hi" (JNum 1) in
  run_ok 1 init two_idle = true
  ∧ mget sockA (activeRooms st) = None
  ∧ partnerOf st sockA = None
  ∧ (send_message 1 1 sockA data st).2 = [(sockB, receive_message (relayed 1 data))].
Proof. repeat split; vm_compute; reflexivity. Qed.

Lemma elem_of_flat_members (rs : gmap jsstr (list jsstr)) (targets : list JsVal)
    (to : jsstr) :
  to ∈ flat_map (members_of rs) targets
  ↔ ∃ r, JStr r ∈ targets ∧ to ∈ members rs r.
Proof.
  induction targets as [|t targets IH]; cbn [flat_map].
  - split; [by intros H%elem_of_nil|]. by intros (r & H%elem_of_nil & _).
  - rewrite elem_of_app, IH. split.
    + intros [H|(r & Hr & Hto)].
      * destruct t; try (by apply elem_of_nil in H).
        eexists. split; [left|done].
      * exists r. split; [by right|done].
    + intros (r & [<-|Hr]%elem_of_cons & Hto); [by left|].
      right. by exists r.
Qed.

Lemma elem_of_recipients (st : State) (targets : list JsVal)
    (except : list jsstr) (to : jsstr) :
  to ∈ recipients st targets except
  ↔ (to ∉ except)
    ∧ ((targets = [] ∧ to ∈ sockets st)
       ∨ (∃ r, JStr r ∈ targets ∧ to ∈ members (rooms st) r)).
Proof.
  unfold recipients. destruct targets as [|t targets].
  - rewrite elem_of_collect. split.
    + intros [H|[? ?]]; [by apply elem_of_nil in H|]. split; [done|]. by left.
    + intros [? [[_ ?]|(r & H & _)]]; [by right|]. by apply elem_of_nil in H.
  - rewrite elem_of_collect, elem_of_flat_members. split.
    + intros [H|[? ?]]; [by apply elem_of_nil in H|]. split; [done|]. by right.
    + intros [? [[? _]|?]]; [done|]. by right.
Qed.

(** C4, as the code has it: the server does not ask whether the sender
    is paired.  A message the rate limiter lets through is relayed to the
    sockets, other than the sender, that are members of a transport room
    named by [roomId] (to every other socket when [roomId] is an empty
    array), and to nobody else; for a paired sender that names its own
    room this is the partner alone. *)
Theorem send_message_relay (n : nat) (now now' : Z) (socket : jsstr)
    (data : SendData) (st : State) :
  (∀ to p, (to, receive_message p) ∈ (send_message now now' socket data st).2
     ↔ (checkMessageRateLimit now socket (messageCounts st)).1 = true
       ∧ p = relayed now' data
       ∧ to ≠ socket
       ∧ ((to_targets (sm_roomId data) = [] ∧ to ∈ sockets st)
          ∨ (∃ r, JStr r ∈ to_targets (sm_roomId data)
                  ∧ to ∈ members (rooms st) r)))
  ∧ (reachable n st →
     ∀ r partner, mget socket (activeRooms st) = Some r →
       partnerOf st socket = Some partner →
       sm_roomId data = JStr r →
       (checkMessageRateLimit now socket (messageCounts st)).1 = true →
       (send_message now now' socket data st).2
       = [(partner, receive_message (relayed now' data))]).
Proof.
  split.
  - intros to p. unfold send_message.
    destruct (checkMessageRateLimit now socket (messageCounts st)) as [[|] mc];
      cbn [negb fst snd].
    + unfold socket_to. fold (relayed now' data).
      change (recipients (set_messageCounts mc st)) with (recipients st).
      rewrite list_elem_of_fmap. setoid_rewrite elem_of_recipients.
      setoid_rewrite list_elem_of_singleton. split.
      * intros (id & [= -> ->] & Hne & H). done.
      * intros (_ & -> & Hne & H). exists to. done.
    + unfold socket_emit. rewrite list_elem_of_singleton.
      split; [discriminate|]. by intros [? _].
  - intros HI%reachable_Inv r partner Hr Hp Hroom Hok. unfold send_message.
    destruct (checkMessageRateLimit now socket (messageCounts st)) as [ok mc].
    simpl in Hok. subst ok. cbn [negb snd]. unfold socket_to.
    fold (relayed now' data).
    change (recipients (set_messageCounts mc st)) with (recipients st).
    rewrite Hroom. by rewrite (room_recipients n st HI socket r partner).
Qed.

Lemma send_message_relay_witness :
  (send_message 3 7 sockA (text_to (JStr (roomName sockB sockA)) "hi" (JNum 1))
     (run init two_paired).1).2
  = [(sockB, receive_message
               (relayed 7 (text_to (JStr (roomName sockB sockA)) "hi" (JNum 1))))].
Proof.
  destruct (send_message_relay 1 3 7 sockA
              (text_to (JStr (roomName sockB sockA)) "hi" (JNum 1))
              (run init two_paired).1) as [_ H].
  apply (H two_paired_reachable (roomName sockB sockA) sockB);
    vm_compute; reflexivity.
Defined.

(** ** The closing scenario of the specification *)

Example scenario_trace :
  (run init scenario).2
  = [(sockB, chat_start (roomName sockB sockA) (JStr (js "alice")) JUndefined);
     (sockA, chat_start (roomName sockB sockA) (JStr (js "bob")) JUndefined);
     (sockB, receive_message
               (relayed 3 (text_to (JStr (roomName sockB sockA)) "hi" (JNum 1))))]
    ++ replicate 10
         (sockB, receive_message
                   (relayed 2000 (text_to (JStr (roomName sockB sockA)) "x" (JNum 2))))
    ++ [(sockA, rate_limit_exceeded too_fast);
        (sockB, partner_disconnected)]
  ∧ activeRooms (run init scenario).1 = []
  ∧ waitingQueue (run init scenario).1 = [].
Proof. repeat split; vm_compute; reflexivity. Qed.

(** * Further properties of the server *)

(** ** The queue *)

Lemma without_length (socket : jsstr) (l : list jsstr) :
  (length (without socket l) ≤ length l)%nat.
Proof.
  unfold without. induction l as [|x l IH]; simpl; [lia|].
  destruct (negb _); simpl; lia.
Qed.

Lemma queue_short_step (i : Input) (st : State) :
  (length (waitingQueue st) ≤ 1)%nat →
  (length (waitingQueue (step i st).1) ≤ 1)%nat.
Proof.
  intros H. unfold step. destruct (event i) as [|data|k|data t| | | | | |];
    try exact H.
  - unfold join_queue. simpl.
    destruct (mhas _ _); [exact H|].
    destruct (bool_decide _); [exact H|].
    destruct (waitingQueue st) as [|p rest]; simpl in *; lia.
  - unfold exchange_keys. destruct k as [| | | | |[|c key]| |]; try exact H.
    simpl. destruct (mget _ _) as [[|? ?]|]; exact H.
  - unfold send_message.
    destruct (checkMessageRateLimit _ _ _) as [[|] mc]; exact H.
  - unfold skip. destruct (mget _ _) as [[|c r]|]; simpl;
      try destruct (found _); simpl;
      etrans; try apply without_length; exact H.
  - unfold disconnect. simpl. destruct (mget _ _) as [[|c r]|]; simpl;
      try destruct (found _); simpl;
      etrans; try apply without_length; exact H.
Qed.

Lemma queue_short_run (inputs : list Input) (st : State) :
  (length (waitingQueue st) ≤ 1)%nat →
  (length (waitingQueue (run st inputs).1) ≤ 1)%nat.
Proof.
  revert st. induction inputs as [|i inputs IH]; intros st H; [exact H|].
  simpl. pose proof (queue_short_step i st H) as H1.
  destruct (step i st) as [st1 out1]. simpl in H1.
  specialize (IH st1 H1). by destruct (run st1 inputs).
Qed.

(** X1: whatever events arrive, the queue never holds more than one
    socket: a [join_queue] that finds somebody waiting pairs the two at
    once, so a socket is only ever queued behind nobody. *)
Theorem queue_at_most_one (inputs : list Input) :
  (length (waitingQueue (run init inputs).1) ≤ 1)%nat.
Proof. apply queue_short_run. simpl. lia. Qed.

(** X2: in every reachable state a socket is idle, queued or paired and
    never two of these: no socket is in the queue twice, a queued socket
    has no room, and only connected sockets are queued or have a room. *)
Theorem connection_states (n : nat) (st : State) :
  reachable n st →
  NoDup (waitingQueue st)
  ∧ (∀ s, s ∈ waitingQueue st → mget s (activeRooms st) = None)
  ∧ (∀ s r, mget s (activeRooms st) = Some r → s ∉ waitingQueue st)
  ∧ (∀ s, s ∈ waitingQueue st ∨ is_Some (mget s (activeRooms st)) →
       s ∈ sockets st).
Proof.
  intros HI%reachable_Inv. split; [apply (inv_queue n st HI)|].
  split; [intros s Hs; by apply (inv_queued n st HI)|]. split.
  - intros s r Hr Hs. apply (inv_queued n st HI) in Hs as [_ Hs]. congruence.
  - intros s [Hs|[r Hr]]; [by apply (inv_queued n st HI)|].
    by apply (inv_paired n st HI s r).
Qed.

Lemma connection_states_witness :
  sockA ∈ sockets (run init one_waiting).1
  ∧ mget sockA (activeRooms (run init one_waiting).1) = None.
Proof.
  destruct (connection_states 1 (run init one_waiting).1 one_waiting_reachable)
    as (_ & H2 & _ & H4).
  split; [apply H4; left; by_eval | apply H2; by_eval].
Defined.

(** ** Leaving *)

(** The other members of the room of a paired socket: its partner. *)
Lemma room_others (n : nat) (st : State) (a r b : jsstr) :
  Inv n st → mget a (activeRooms st) = Some r → partnerOf st a = Some b →
  without a (members (rooms st) r) = [b].
Proof.
  intros HI Ha Hp. pose proof (room_recipients n st HI a r b Ha Hp) as H.
  unfold recipients, to_targets in H. cbn [flat_map members_of] in H.
  rewrite app_nil_r in H.
  by rewrite collect_without in H by (cbn [app]; apply (inv_nodup n st HI)).
Qed.

Lemma closed_recipients (n : nat) (st : State) (a r b : jsstr) :
  Inv n st → mget a (activeRooms st) = Some r → partnerOf st a = Some b →
  recipients (closed a st) (to_targets (JStr r)) [a] = [b].
Proof.
  intros HI Ha Hp. unfold recipients, to_targets, closed.
  cbn [flat_map members_of rooms set_rooms set_sockets].
  rewrite app_nil_r, members_leave_all.
  rewrite collect_without
    by (cbn [app]; apply without_NoDup, (inv_nodup n st HI)).
  cbn [app]. rewrite without_without. by apply (room_others n st a r b).
Qed.

(** X3: when a socket disconnects nothing of it is left: it is no
    longer a connected socket, it is in no transport room, not in the
    queue, not in the registry, it has no key and no rate record, and it
    is nobody's partner. *)
Theorem disconnect_cleans_up (n : nat) (st : State) (socket : jsstr) :
  reachable n st →
  let st' := (disconnect socket st).1 in
  (socket ∉ sockets st')
  ∧ (∀ r, socket ∉ members (rooms st') r)
  ∧ (socket ∉ waitingQueue st')
  ∧ mget socket (activeRooms st') = None
  ∧ publicKeys st' !! socket = None
  ∧ messageCounts st' !! socket = None
  ∧ (∀ a, partnerOf st' a ≠ Some socket).
Proof.
  intros HI%reachable_Inv st'.
  pose proof (Inv_disconnect n st socket HI) as HI'. fold st' in HI'.
  assert (Hreg : mget socket (activeRooms st') = None).
  { unfold st'. destruct (mget socket (activeRooms st)) as [r|] eqn:Hget.
    - destruct (Inv_dissolved n st socket r HI Hget) as (b & _ & Hf & _ & Hs & _).
      destruct (paired_partner n st HI socket r Hget)
        as (? & _ & _ & _ & _ & _ & _ & Ht & _).
      by rewrite (disconnect_paired socket r b).
    - by rewrite disconnect_unpaired. }
  assert (Hfields : sockets st' = without socket (sockets st)
                    ∧ rooms st' = leave_all socket (rooms st)
                    ∧ waitingQueue st' = without socket (waitingQueue st)
                    ∧ messageCounts st' = delete socket (messageCounts st)).
  { unfold st', disconnect. simpl.
    destruct (mget socket (activeRooms st)) as [[|c r]|]; try done.
    simpl. by destruct (found _). }
  destruct Hfields as (Hs & Hr & Hq & Hm).
  split; [rewrite Hs; by intros [_ ?]%elem_of_without|].
  split; [intros r; rewrite Hr, members_leave_all;
          by intros [_ ?]%elem_of_without|].
  split; [rewrite Hq; by intros [_ ?]%elem_of_without|].
  split; [done|].
  split.
  { unfold st', disconnect. simpl.
    destruct (mget socket (activeRooms st)) as [[|c r]|];
      try apply lookup_delete_eq.
    simpl. destruct (found _); simpl; [|apply lookup_delete_eq].
    rewrite lookup_delete. case_decide; [done|apply lookup_delete_eq]. }
  split; [rewrite Hm; apply lookup_delete_eq|].
  intros a Ha. apply (partnerOf_sym n st' a socket HI') in Ha.
  apply partnerOf_mget in Ha as [r Ha]. congruence.
Qed.

Lemma disconnect_cleans_up_witness :
  (sockA ∉ sockets (disconnect sockA (run init two_paired).1).1)
  ∧ partnerOf (disconnect sockA (run init two_paired).1).1 sockB ≠ Some sockA.
Proof.
  destruct (disconnect_cleans_up 1 (run init two_paired).1 sockA
              two_paired_reachable) as (H1 & _ & _ & _ & _ & _ & H7).
  split; [exact H1 | apply H7].
Defined.

(** X4: a paired socket that skips or disconnects causes exactly one
    delivery, [partner_disconnected] to its partner; a socket without a
    room that skips or disconnects causes none. *)
Theorem leaving_notifies_partner (n : nat) (st : State) (a : jsstr) :
  reachable n st →
  (∀ b, partnerOf st a = Some b →
     (skip a st).2 = [(b, partner_disconnected)]
     ∧ (disconnect a st).2 = [(b, partner_disconnected)])
  ∧ (mget a (activeRooms st) = None →
     (skip a st).2 = [] ∧ (disconnect a st).2 = []).
Proof.
  intros HI%reachable_Inv. split.
  - intros b Hp. destruct (partnerOf_mget st a b Hp) as [r Ha].
    destruct (paired_partner n st HI a r Ha)
      as (b' & Hf & Hp' & _ & _ & _ & _ & Ht & _).
    assert (b' = b) as -> by congruence.
    rewrite (skip_paired a r b), (disconnect_paired a r b) by done.
    cbn [snd]. unfold socket_to.
    rewrite (room_recipients n st HI a r b) by done.
    rewrite (closed_recipients n st a r b) by done. done.
  - intros Ha. by rewrite skip_unpaired, disconnect_unpaired.
Qed.

Lemma leaving_notifies_partner_witness :
  (skip sockA (run init two_paired).1).2 = [(sockB, partner_disconnected)]
  ∧ (disconnect sockA (run init two_paired).1).2 = [(sockB, partner_disconnected)].
Proof.
  destruct (leaving_notifies_partner 1 (run init two_paired).1 sockA
              two_paired_reachable) as [H _].
  apply H. vm_compute. reflexivity.
Defined.

(** X5: once a socket has skipped or disconnected, its former partner
    is alone in the transport room they shared, so what the partner
    still sends to that room reaches nobody. *)
Theorem dissolved_room_is_silent (n : nat) (st st' : State) (a b r : jsstr) :
  reachable n st →
  mget a (activeRooms st) = Some r → partnerOf st a = Some b →
  st' = (skip a st).1 ∨ st' = (disconnect a st).1 →
  members (rooms st') r = [b]
  ∧ (∀ now now' data, sm_roomId data = JStr r →
       (send_message now now' b data st').2 = []
       ∨ (send_message now now' b data st').2
         = [(b, rate_limit_exceeded too_fast)])
  ∧ (∀ id text, (edit_message b (JStr r) id text st').2 = []
                ∧ (delete_message b (JStr r) id st').2 = []
                ∧ (typing b (JStr r) st').2 = []).
Proof.
  intros HI%reachable_Inv Ha Hp Hst'.
  destruct (paired_partner n st HI a r Ha)
    as (b' & Hf & Hp' & Hne & _ & _ & _ & Ht & _).
  assert (b' = b) as -> by congruence.
  pose proof (room_others n st a r b HI Ha Hp) as Hothers.
  assert (Hm : members (rooms st') r = [b]).
  { destruct Hst' as [-> | ->].
    - rewrite (skip_paired a r b) by done. simpl.
      rewrite members_leave. by rewrite decide_True.
    - rewrite (disconnect_paired a r b) by done. simpl.
      by rewrite members_leave_all. }
  assert (Hnone : ∀ s, rooms s = rooms st' →
                    recipients s (to_targets (JStr r)) [b] = []).
  { intros s Hs. unfold recipients, to_targets.
    cbn [flat_map members_of]. rewrite Hs, Hm. cbn [app collect].
    rewrite (bool_decide_eq_false_2 (b ∈ [])) by apply not_elem_of_nil.
    by rewrite bool_decide_eq_true_2 by left. }
  split; [done|]. split.
  - intros now now' data Hroom. unfold send_message.
    destruct (checkMessageRateLimit now b (messageCounts st')) as [[|] mc];
      cbn [negb snd]; [left|by right].
    unfold socket_to. rewrite Hroom, Hnone; done.
  - intros id text. unfold edit_message, delete_message, typing, socket_to.
    cbn [snd]. by rewrite Hnone.
Qed.

Lemma dissolved_room_is_silent_witness :
  members (rooms (skip sockA (run init two_paired).1).1) (roomName sockB sockA)
  = [sockB].
Proof.
  destruct (dissolved_room_is_silent 1 (run init two_paired).1
              (skip sockA (run init two_paired).1).1 sockA sockB
              (roomName sockB sockA) two_paired_reachable) as [H _];
    [vm_compute; reflexivity | vm_compute; reflexivity | by left | exact H].
Defined.

(** ** Signals *)

(** X6: [typing], [stop_typing], [edit_message] and [delete_message]
    change nothing on the server, are never handed back to the sender,
    and, sent by a paired socket to its own room, reach the partner and
    nobody else, the id and the text as the sender gave them. *)
Theorem signals_reach_partner (n : nat) (st : State) (socket : jsstr)
    (roomId id text : JsVal) :
  (typing socket roomId st).1 = st
  ∧ (stop_typing socket roomId st).1 = st
  ∧ (edit_message socket roomId id text st).1 = st
  ∧ (delete_message socket roomId id st).1 = st
  ∧ (∀ ev, (socket, ev) ∉ (typing socket roomId st).2
           ++ (stop_typing socket roomId st).2
           ++ (edit_message socket roomId id text st).2
           ++ (delete_message socket roomId id st).2)
  ∧ (reachable n st →
     ∀ r partner, mget socket (activeRooms st) = Some r →
       partnerOf st socket = Some partner → roomId = JStr r →
       (typing socket roomId st).2 = [(partner, typing_out)]
       ∧ (stop_typing socket roomId st).2 = [(partner, stop_typing_out)]
       ∧ (edit_message socket roomId id text st).2
         = [(partner, message_edited id text)]
       ∧ (delete_message socket roomId id st).2
         = [(partner, message_deleted id)]).
Proof.
  repeat (split; [reflexivity|]). split.
  - intros ev. unfold typing, stop_typing, edit_message, delete_message,
      socket_to. cbn [snd]. rewrite !elem_of_app, !list_elem_of_fmap.
    assert (Hno : socket ∉ recipients st (to_targets roomId) [socket]).
    { rewrite elem_of_recipients. intros [H _]. apply H. left. }
    intros [(x & [= <- _] & H)|[(x & [= <- _] & H)
           |[(x & [= <- _] & H)|(x & [= <- _] & H)]]]; done.
  - intros HI%reachable_Inv r partner Hr Hp ->.
    unfold typing, stop_typing, edit_message, delete_message, socket_to.
    cbn [snd]. by rewrite (room_recipients n st HI socket r partner).
Qed.

Lemma signals_reach_partner_witness :
  (edit_message sockA (JStr (roomName sockB sockA)) (JNum 5) (JStr (js "hey"))
     (run init two_paired).1).2
  = [(sockB, message_edited (JNum 5) (JStr (js "hey")))].
Proof.
  destruct (signals_reach_partner 1 (run init two_paired).1 sockA
              (JStr (roomName sockB sockA)) (JNum 5) (JStr (js "hey")))
    as (_ & _ & _ & _ & _ & H).
  destruct (H two_paired_reachable (roomName sockB sockA) sockB)
    as (_ & _ & H3 & _); [vm_compute; reflexivity..| reflexivity |].
  exact H3.
Defined.

(** ** Rate records *)

Lemma check_other (now : Z) (a b : jsstr) (mc : gmap jsstr RateRecord) :
  a ≠ b → (checkMessageRateLimit now a mc).2 !! b = mc !! b.
Proof.
  intros Hne. unfold checkMessageRateLimit.
  destruct (mc !! a) as [r|]; cbn [snd]; [|by rewrite lookup_insert_ne].
  destruct (now >? resetTime r); cbn [snd]; [by rewrite lookup_insert_ne|].
  destruct (count r >=? MESSAGE_RATE_LIMIT); cbn [snd]; [done|].
  by rewrite lookup_insert_ne.
Qed.

Lemma check_local (now : Z) (b : jsstr) (mc1 mc2 : gmap jsstr RateRecord) :
  mc1 !! b = mc2 !! b →
  (checkMessageRateLimit now b mc1).1 = (checkMessageRateLimit now b mc2).1
  ∧ (checkMessageRateLimit now b mc1).2 !! b
    = (checkMessageRateLimit now b mc2).2 !! b.
Proof.
  intros H. unfold checkMessageRateLimit. rewrite <- H.
  destruct (mc1 !! b) as [r|] eqn:E; cbn [fst snd].
  - destruct (now >? resetTime r); cbn [fst snd];
      [by rewrite !lookup_insert_eq|].
    destruct (count r >=? MESSAGE_RATE_LIMIT); cbn [fst snd].
    + split; [done|]. congruence.
    + by rewrite !lookup_insert_eq.
  - by rewrite !lookup_insert_eq.
Qed.

Lemma calls_local (b : jsstr) (ts : list Z) (mc1 mc2 : gmap jsstr RateRecord) :
  mc1 !! b = mc2 !! b → (calls b ts mc1).1 = (calls b ts mc2).1.
Proof.
  revert mc1 mc2. induction ts as [|t ts IH]; intros mc1 mc2 H; [done|].
  simpl. destruct (check_local t b mc1 mc2 H) as [H1 H2].
  destruct (checkMessageRateLimit t b mc1) as [ok1 m1].
  destruct (checkMessageRateLimit t b mc2) as [ok2 m2].
  simpl in H1, H2. subst ok2. specialize (IH m1 m2 H2).
  destruct (calls b ts m1), (calls b ts m2). simpl in *. by subst.
Qed.

(** X7: the limiter counts per socket: a call for one socket leaves the
    record of every other socket as it is, and does not change any
    answer the other socket gets afterwards. *)
Theorem rate_limit_per_socket (now : Z) (a b : jsstr) (ts : list Z)
    (mc : gmap jsstr RateRecord) :
  a ≠ b →
  (checkMessageRateLimit now a mc).2 !! b = mc !! b
  ∧ (calls b ts (checkMessageRateLimit now a mc).2).1 = (calls b ts mc).1.
Proof.
  intros Hne. split; [by apply check_other|].
  apply calls_local. by apply check_other.
Qed.

Lemma rate_limit_per_socket_witness :
  (calls sockB [5; 6] (checkMessageRateLimit 0 sockA ∅).2).1
  = (calls sockB [5; 6] ∅).1.
Proof. apply (rate_limit_per_socket 0 sockA sockB [5; 6] ∅). done. Defined.

(** ** What each event does to the tables *)

Lemma step_messageCounts (i : Input) (st : State) :
  messageCounts (step i st).1
  = match event i with
    | SendMessage _ _ =>
        (checkMessageRateLimit (at_time i) (on_socket i) (messageCounts st)).2
    | Disconnect => delete (on_socket i) (messageCounts st)
    | _ => messageCounts st
    end.
Proof.
  unfold step. destruct (event i) as [|data|k|data t| | | | | |]; try done.
  - unfold join_queue. simpl. destruct (mhas _ _); [done|].
    destruct (bool_decide _); [done|]. by destruct (waitingQueue st).
  - unfold exchange_keys. destruct k as [| | | | |[|c key]| |]; try done.
    simpl. by destruct (mget _ _) as [[|? ?]|].
  - unfold send_message.
    by destruct (checkMessageRateLimit _ _ _) as [[|] mc].
  - unfold skip. destruct (mget _ _) as [[|c r]|]; simpl; try done.
    by destruct (found _).
  - unfold disconnect. simpl. destruct (mget _ _) as [[|c r]|]; simpl; try done.
    by destruct (found _).
Qed.

Lemma step_publicKeys (i : Input) (st : State) :
  publicKeys (step i st).1
  = match event i with
    | ExchangeKeys (JStr (c :: key)) =>
        <[on_socket i := c :: key]> (publicKeys st)
    | Disconnect =>
        match partnerOf st (on_socket i) with
        | Some p => delete p (delete (on_socket i) (publicKeys st))
        | None => delete (on_socket i) (publicKeys st)
        end
    | _ => publicKeys st
    end.
Proof.
  unfold step. destruct (event i) as [|data|k|data t| | | | | |]; try done.
  - unfold join_queue. simpl. destruct (mhas _ _); [done|].
    destruct (bool_decide _); [done|]. by destruct (waitingQueue st).
  - unfold exchange_keys. destruct k as [| | | | |[|c key]| |]; try done.
    simpl. by destruct (mget _ _) as [[|? ?]|].
  - unfold send_message.
    by destruct (checkMessageRateLimit _ _ _) as [[|] mc].
  - unfold skip. destruct (mget _ _) as [[|c r]|]; simpl; try done.
    by destruct (found _).
  - unfold disconnect, partnerOf. simpl.
    destruct (mget _ _) as [[|c r]|]; simpl; try done.
    by destruct (found _).
Qed.

Lemma step_sockets (i : Input) (st : State) :
  sockets (step i st).1
  = match event i with
    | Connection => sockets st ++ [on_socket i]
    | Disconnect => without (on_socket i) (sockets st)
    | _ => sockets st
    end.
Proof.
  unfold step. destruct (event i) as [|data|k|data t| | | | | |]; try done.
  - unfold join_queue. simpl. destruct (mhas _ _); [done|].
    destruct (bool_decide _); [done|]. by destruct (waitingQueue st).
  - unfold exchange_keys. destruct k as [| | | | |[|c key]| |]; try done.
    simpl. by destruct (mget _ _) as [[|? ?]|].
  - unfold send_message.
    by destruct (checkMessageRateLimit _ _ _) as [[|] mc].
  - unfold skip. destruct (mget _ _) as [[|c r]|]; simpl; try done.
    by destruct (found _).
  - unfold disconnect. simpl. destruct (mget _ _) as [[|c r]|]; simpl; try done.
    by destruct (found _).
Qed.

Lemma check_bounded (now : Z) (a s : jsstr) (mc : gmap jsstr RateRecord)
    (r : RateRecord) :
  (∀ s r, mc !! s = Some r → 1 <= count r <= MESSAGE_RATE_LIMIT) →
  (checkMessageRateLimit now a mc).2 !! s = Some r →
  1 <= count r <= MESSAGE_RATE_LIMIT.
Proof.
  intros Hmc. unfold checkMessageRateLimit, MESSAGE_RATE_LIMIT in *.
  assert (Hnew : ∀ c e, 1 <= c <= 10 →
            <[a := mkRate c e]> mc !! s = Some r → 1 <= count r <= 10).
  { intros c e Hc. rewrite lookup_insert. case_decide; [|apply Hmc].
    by intros [= <-]. }
  destruct (mc !! a) as [ra|] eqn:Ha; cbn [snd]; [|apply Hnew; lia].
  destruct (now >? resetTime ra); cbn [snd]; [apply Hnew; lia|].
  destruct (Z.geb_spec (count ra) 10); cbn [snd]; [apply Hmc|].
  apply Hnew. specialize (Hmc a ra Ha). lia.
Qed.

Lemma counts_bounded_run (inputs : list Input) (st : State) :
  (∀ s r, messageCounts st !! s = Some r → 1 <= count r <= MESSAGE_RATE_LIMIT) →
  ∀ s r, messageCounts (run st inputs).1 !! s = Some r →
         1 <= count r <= MESSAGE_RATE_LIMIT.
Proof.
  revert st. induction inputs as [|i inputs IH]; intros st H; [exact H|].
  simpl. pose proof (step_messageCounts i st) as Hstep.
  destruct (step i st) as [st1 out1]. simpl in Hstep.
  specialize (IH st1). destruct (run st1 inputs) as [st2 out2]. simpl in *.
  apply IH. intros s r. rewrite Hstep.
  destruct (event i); try apply H.
  - by apply check_bounded.
  - rewrite lookup_delete. case_decide; [done|apply H].
Qed.

(** X8: whatever events arrive, the count of a rate record is never
    below 1 and never above the limit of 10. *)
Theorem rate_record_bounded (inputs : list Input) (s : jsstr) (r : RateRecord) :
  messageCounts (run init inputs).1 !! s = Some r → 1 <= count r <= 10.
Proof.
  apply (counts_bounded_run inputs init). intros s' r'. simpl.
  by rewrite lookup_empty.
Qed.

Lemma rate_record_bounded_witness : 1 <= count (mkRate 10 1003) <= 10.
Proof.
  apply (rate_record_bounded ten_sent sockA). vm_compute. reflexivity.
Defined.

(** X9: a rate record is touched only by its own socket: it changes
    when that socket sends a message and goes when that socket
    disconnects.  Likewise a stored key changes only when its socket
    publishes a key, and goes only when that socket or its partner
    disconnects.  Joining, skipping and whatever other sockets send leave
    both as they are. *)
Theorem tables_change_by_owner (i : Input) (st : State) (s : jsstr) :
  (messageCounts (step i st).1 !! s ≠ messageCounts st !! s →
     on_socket i = s
     ∧ ((∃ data now', event i = SendMessage data now') ∨ event i = Disconnect))
  ∧ (publicKeys (step i st).1 !! s ≠ publicKeys st !! s →
     (on_socket i = s ∧ ∃ key, event i = ExchangeKeys (JStr key))
     ∨ (event i = Disconnect
        ∧ (on_socket i = s ∨ partnerOf st (on_socket i) = Some s))).
Proof.
  rewrite step_messageCounts, step_publicKeys. split.
  - destruct (event i) as [|data|k|data t| | | | | |]; try done.
    + intros H. destruct (decide (on_socket i = s)) as [Heq|Hne]; [eauto|].
      exfalso. apply H. by apply check_other.
    + intros H. destruct (decide (on_socket i = s)) as [Heq|Hne]; [eauto|].
      exfalso. apply H. by rewrite lookup_delete_ne.
  - destruct (event i) as [|data|k|data t| | | | | |]; try done.
    + destruct k as [| | | | |[|c key]| |]; try done.
      intros H. left. destruct (decide (on_socket i = s)) as [Heq|Hne]; [eauto|].
      exfalso. apply H. by rewrite lookup_insert_ne.
    + intros H. right. split; [done|].
      destruct (decide (on_socket i = s)) as [Heq|Hne]; [by left|]. right.
      destruct (partnerOf st (on_socket i)) as [p|].
      * destruct (decide (p = s)) as [->|Hps]; [done|].
        exfalso. apply H. by rewrite !lookup_delete_ne.
      * exfalso. apply H. by rewrite lookup_delete_ne.
Qed.

Lemma tables_change_by_owner_witness :
  on_socket (mkInput 3 sockB (ExchangeKeys (JStr (js "K")))) = sockB.
Proof.
  destruct (tables_change_by_owner
              (mkInput 3 sockB (ExchangeKeys (JStr (js "K"))))
              (run init two_paired).1 sockB) as [_ H].
  destruct H as [[H _]|[H _]]; [vm_compute; discriminate | exact H |].
  discriminate H.
Defined.

(** ** Nothing is kept for a socket that is gone *)

Lemma tables_connected_run (n : nat) (inputs : list Input) (st : State) :
  (∀ s, is_Some (publicKeys st !! s) ∨ is_Some (messageCounts st !! s) →
        s ∈ sockets st) →
  run_ok n st inputs = true →
  ∀ s, is_Some (publicKeys (run st inputs).1 !! s)
       ∨ is_Some (messageCounts (run st inputs).1 !! s) →
       s ∈ sockets (run st inputs).1.
Proof.
  revert st. induction inputs as [|i inputs IH]; intros st H Hok; [exact H|].
  simpl in Hok. apply andb_true_iff in Hok as [Hi Hok]. simpl.
  pose proof (step_messageCounts i st) as Hmc.
  pose proof (step_publicKeys i st) as Hpk.
  pose proof (step_sockets i st) as Hso.
  destruct (step i st) as [st1 out1]. simpl in Hmc, Hpk, Hso, Hok.
  specialize (IH st1). destruct (run st1 inputs) as [st2 out2]. simpl in *.
  apply IH; [|done]. intros s. rewrite Hmc, Hpk, Hso. clear IH Hmc Hpk Hso.
  unfold event_ok in Hi.
  destruct (event i) as [|data|k|data t| | | | | |]; try apply H.
  - intros Hs. apply elem_of_app. left. by apply H.
  - apply bool_decide_eq_true in Hi.
    destruct k as [| | | | |[|c key]| |]; try apply H.
    rewrite lookup_insert. case_decide as E; [by subst|apply H].
  - apply bool_decide_eq_true in Hi.
    destruct (decide (on_socket i = s)) as [<-|Hne]; [done|].
    rewrite check_other by done. apply H.
  - intros Hs. apply elem_of_without.
    assert (Hne : s ≠ on_socket i).
    { intros ->. destruct Hs as [Hs|Hs].
      - destruct (partnerOf st (on_socket i)) as [p|].
        + rewrite lookup_delete in Hs. case_decide; [by destruct Hs|].
          rewrite lookup_delete_eq in Hs. by destruct Hs.
        + rewrite lookup_delete_eq in Hs. by destruct Hs.
      - rewrite lookup_delete_eq in Hs. by destruct Hs. }
    split; [|done]. apply H. destruct Hs as [Hs|Hs]; [left|right].
    + destruct (partnerOf st (on_socket i)) as [p|].
      * rewrite lookup_delete in Hs. case_decide; [by destruct Hs|].
        by rewrite lookup_delete_ne in Hs.
      * by rewrite lookup_delete_ne in Hs.
    + by rewrite lookup_delete_ne in Hs.
Qed.

(** X10: in every reachable state, keys and rate records are kept for
    connected sockets only; so a socket that connects starts without a
    key and without a rate record, whoever was connected before. *)
Theorem tables_hold_connected_only (n : nat) (st : State) (s : jsstr) :
  reachable n st →
  (is_Some (publicKeys st !! s) ∨ is_Some (messageCounts st !! s) →
     s ∈ sockets st)
  ∧ (s ∉ sockets st →
     publicKeys (connection s st).1 !! s = None
     ∧ messageCounts (connection s st).1 !! s = None).
Proof.
  intros (inputs & Hok & <-).
  assert (H : ∀ s, is_Some (publicKeys (run init inputs).1 !! s)
                   ∨ is_Some (messageCounts (run init inputs).1 !! s) →
                   s ∈ sockets (run init inputs).1).
  { apply (tables_connected_run n inputs init); [|done].
    intros s'. simpl. rewrite !lookup_empty. by intros [[? ?]|[? ?]]. }
  split; [apply H|]. intros Hs. simpl.
  split; apply eq_None_not_Some; intros Hsome; apply Hs, H; auto.
Qed.

Lemma tables_hold_connected_only_witness :
  sockB ∈ sockets (run init key_published).1.
Proof.
  assert (Hr : reachable 1 (run init key_published).1).
  { exists key_published. split; [vm_compute|]; reflexivity. }
  destruct (tables_hold_connected_only 1 (run init key_published).1 sockB Hr)
    as [H _].
  apply H. left. vm_compute. eauto.
Defined.

(** ** Names that need no sanitizing *)

Lemma replaceAll_absent (c : N) (rep s : jsstr) :
  c ∉ s → replaceAll c rep s = s.
Proof.
  induction s as [|x s IH]; [done|].
  intros [Hx Hs]%not_elem_of_cons. simpl.
  destruct (N.eqb_spec x c) as [->|_]; [done|]. simpl. by rewrite IH.
Qed.

Lemma trimStart_kept (s : jsstr) :
  (∀ c, head s = Some c → is_js_space c = false) → trimStart s = s.
Proof. destruct s as [|c s]; [done|]. intros H. simpl. by rewrite (H c). Qed.

Lemma sanitizeUsername_not_empty (v : JsVal) : sanitizeUsername v ≠ [].
Proof.
  destruct (is_string v) eqn:Hv;
    [|by rewrite sanitizeUsername_not_string].
  destruct v as [| | | | |s| |]; try discriminate.
  destruct s as [|c s]; [done|].
  unfold sanitizeUsername. simpl negb. cbv iota. simpl orb. cbv iota.
  by destruct (js_or_str_cases (substring0 50 (escape (trim (c :: s)))) Anonymous)
    as [[_ ->]|[? ->]].
Qed.

(** X11: the stored name is never empty; and a name of 1 to 50
    characters that neither starts nor ends with white space and has
    none of the eight characters [validator.escape] rewrites is stored
    exactly as it was submitted. *)
Theorem plain_name_kept (v : JsVal) :
  sanitizeUsername v ≠ []
  ∧ (∀ s, v = JStr s → s ≠ [] → (length s ≤ 50)%nat →
       Forall (λ c, c ∉ 38%N :: markup) s →
       (∀ c, head s = Some c ∨ last s = Some c → is_js_space c = false) →
       sanitizeUsername v = s).
Proof.
  split; [apply sanitizeUsername_not_empty|].
  intros s -> Hne Hlen Hplain Hends.
  assert (Htrim : trim s = s).
  { unfold trim, trimEnd.
    rewrite (trimStart_kept s) by (intros c Hc; apply Hends; by left).
    rewrite trimStart_kept; [apply rev_involutive|].
    intros c Hc. apply Hends. right.
    rewrite rev_alt in Hc. change (rev_append s []) with (reverse s) in Hc.
    by rewrite head_reverse in Hc. }
  assert (Hesc : escape s = s).
  { assert (Hno : ∀ c, c ∈ 38%N :: markup → c ∉ s).
    { intros c Hc Hin. by apply (proj1 (Forall_forall _ _) Hplain _ Hin). }
    unfold escape.
    rewrite (replaceAll_absent 38 _ s) by (apply Hno; unfold markup; by_eval).
    rewrite (replaceAll_absent 34 _ s) by (apply Hno; unfold markup; by_eval).
    rewrite (replaceAll_absent 39 _ s) by (apply Hno; unfold markup; by_eval).
    rewrite (replaceAll_absent 60 _ s) by (apply Hno; unfold markup; by_eval).
    rewrite (replaceAll_absent 62 _ s) by (apply Hno; unfold markup; by_eval).
    rewrite (replaceAll_absent 47 _ s) by (apply Hno; unfold markup; by_eval).
    rewrite (replaceAll_absent 92 _ s) by (apply Hno; unfold markup; by_eval).
    by rewrite (replaceAll_absent 96 _ s) by (apply Hno; unfold markup; by_eval). }
  destruct s as [|c s]; [done|].
  unfold sanitizeUsername. simpl negb. cbv iota. simpl orb. cbv iota.
  rewrite Htrim, Hesc. unfold substring0. rewrite take_ge by done. done.
Qed.

Lemma plain_name_kept_witness :
  sanitizeUsername (JStr (js "Ada Lovelace")) = js "Ada Lovelace".
Proof.
  destruct (plain_name_kept (JStr (js "Ada Lovelace"))) as [_ H].
  apply H; [reflexivity | done | vm_compute; lia
           | repeat constructor; by_eval |].
  intros c [[= <-]|[= <-]]; reflexivity.
Defined.

(** ** The message list of the client *)

Lemma edited_shown (i t : JsVal) (l1 l2 : list App.Message) :
  List.map App.shown l1 = List.map App.shown l2 →
  List.map App.shown (App.edit_all i t l1)
  = List.map App.shown (App.edit_all i t l2).
Proof.
  revert l2. induction l1 as [|m1 l1 IH]; intros [|m2 l2]; try done.
  simpl. intros [= H1 H2 H3 H4 Hl]. rewrite (IH l2 Hl). f_equal.
  rewrite H1. destruct (strict_eq (App.id m2) i); unfold App.shown; simpl;
    congruence.
Qed.

Lemma deleted_shown (i : JsVal) (l1 l2 : list App.Message) :
  List.map App.shown l1 = List.map App.shown l2 →
  List.map App.shown (App.delete_all i l1)
  = List.map App.shown (App.delete_all i l2).
Proof.
  revert l2. induction l1 as [|m1 l1 IH]; intros [|m2 l2]; try done.
  simpl. intros [= H1 H2 H3 H4 Hl]. rewrite (IH l2 Hl). f_equal.
  rewrite H1. destruct (strict_eq (App.id m2) i); unfold App.shown; simpl;
    congruence.
Qed.

(** X12: an edit or a delete that arrives changes every message that
    has the given id, whoever sent it, and no other; neither changes the
    number, the order or the ids of the messages; a delete marks the
    message and keeps its text; doing either twice is the same as once,
    and an edit that arrives after the delete still changes the text. *)
Theorem edits_go_by_id (i t : JsVal) (prev : list App.Message) :
  List.map App.id (App.edit_all i t prev) = List.map App.id prev
  ∧ List.map App.id (App.delete_all i prev) = List.map App.id prev
  ∧ List.map App.text (App.delete_all i prev) = List.map App.text prev
  ∧ (∀ k msg, prev !! k = Some msg →
       App.edit_all i t prev !! k
       = Some (if strict_eq (App.id msg) i then App.edited t msg else msg)
       ∧ App.delete_all i prev !! k
         = Some (if strict_eq (App.id msg) i then App.deleted msg else msg))
  ∧ App.edit_all i t (App.edit_all i t prev) = App.edit_all i t prev
  ∧ App.delete_all i (App.delete_all i prev) = App.delete_all i prev
  ∧ App.edit_all i t (App.delete_all i prev)
    = App.delete_all i (App.edit_all i t prev).
Proof.
  unfold App.edit_all, App.delete_all.
  repeat split.
  - induction prev as [|m l IH]; [done|]. simpl. rewrite IH.
    by destruct (strict_eq (App.id m) i).
  - induction prev as [|m l IH]; [done|]. simpl. rewrite IH.
    by destruct (strict_eq (App.id m) i).
  - induction prev as [|m l IH]; [done|]. simpl. rewrite IH.
    by destruct (strict_eq (App.id m) i).
  - change (List.map ?f prev) with (f <$> prev).
    by rewrite list_lookup_fmap, H.
  - change (List.map ?f prev) with (f <$> prev).
    by rewrite list_lookup_fmap, H.
  - induction prev as [|m l IH]; [done|]. simpl. rewrite IH. f_equal.
    destruct (strict_eq (App.id m) i) eqn:E; simpl; by rewrite E.
  - induction prev as [|m l IH]; [done|]. simpl. rewrite IH. f_equal.
    destruct (strict_eq (App.id m) i) eqn:E; simpl; by rewrite E.
  - induction prev as [|m l IH]; [done|]. simpl. rewrite IH. f_equal.
    destruct (strict_eq (App.id m) i) eqn:E; simpl; by rewrite E.
Qed.

Lemma edits_go_by_id_witness :
  App.edit_all (JNum 7) (JStr (js "new"))
    [App.system_message 7 "old"; App.system_message 8 "other"] !! 0%nat
  = Some (App.edited (JStr (js "new")) (App.system_message 7 "old")).
Proof.
  destruct (edits_go_by_id (JNum 7) (JStr (js "new"))
              [App.system_message 7 "old"; App.system_message 8 "other"])
    as (_ & _ & _ & H & _).
  destruct (H 0%nat (App.system_message 7 "old")) as [H1 _]; [reflexivity|].
  exact H1.
Defined.

(** ** Runs, continued *)

Lemma run_app (st : State) (l1 l2 : list Input) :
  (run st (l1 ++ l2)).1 = (run (run st l1).1 l2).1.
Proof.
  revert st. induction l1 as [|i l1 IH]; intros st; [done|].
  simpl. destruct (step i st) as [st1 out1]. specialize (IH st1).
  destruct (run st1 (l1 ++ l2)), (run st1 l1). simpl in *.
  by destruct (run s0 l2).
Qed.

Lemma run_ok_app (n : nat) (st : State) (l1 l2 : list Input) :
  run_ok n st (l1 ++ l2) = run_ok n st l1 && run_ok n (run st l1).1 l2.
Proof.
  revert st. induction l1 as [|i l1 IH]; intros st; [done|].
  simpl. rewrite IH. destruct (step i st) as [st1 out1]. simpl.
  destruct (run st1 l1). simpl. by rewrite andb_assoc.
Qed.

Lemma reachable_run (n : nat) (st : State) (inputs : list Input) :
  reachable n st → run_ok n st inputs = true →
  reachable n (run st inputs).1.
Proof.
  intros (before & Hok & <-) Hok'. exists (before ++ inputs).
  split; [|apply run_app]. rewrite run_ok_app, Hok. done.
Qed.

(** ** Two clients and the server *)

Lemma partnerOf_registry (st st' : State) (a : jsstr) :
  activeRooms st' = activeRooms st → partnerOf st' a = partnerOf st a.
Proof. unfold partnerOf. by intros ->. Qed.

Lemma recipients_transport (st st' : State) (targets : list JsVal)
    (except : list jsstr) :
  sockets st' = sockets st → rooms st' = rooms st →
  recipients st' targets except = recipients st targets except.
Proof. unfold recipients. by intros -> ->. Qed.

Section conversation.
Context (n : nat) (st : State) (a b r : jsstr).
Context (HI : Inv n st).
Context (Ha : mget a (activeRooms st) = Some r).
Context (Hp : partnerOf st a = Some b).

Lemma paired_facts :
  a ≠ b ∧ a ∈ sockets st ∧ truthy (JStr r) = true.
Proof using HI Ha Hp.
  destruct (paired_partner n st HI a r Ha)
    as (b' & _ & Hp' & Hne & _ & _ & _ & Ht & _).
  assert (b' = b) as -> by congruence.
  destruct (inv_paired n st HI a r Ha) as [Hs _]. done.
Qed.

(** What the server makes of the requests of [handleSendMessage]. *)
Lemma serve_sent (t : Z) (data : SendData) :
  sm_roomId data = JStr r →
  (checkMessageRateLimit t a (messageCounts st)).1 = true →
  ∃ st1, App.serve t a [App.send_message_req data; App.stop_typing_req (JStr r)] st
         = (st1, [(b, receive_message (relayed t data)); (b, stop_typing_out)])
         ∧ sockets st1 = sockets st ∧ rooms st1 = rooms st
         ∧ waitingQueue st1 = waitingQueue st
         ∧ activeRooms st1 = activeRooms st.
Proof using HI Ha Hp.
  intros Hroom Hok. unfold App.serve. simpl. unfold step. simpl.
  unfold send_message.
  destruct (checkMessageRateLimit t a (messageCounts st)) as [ok mc].
  simpl in Hok. subst ok. cbn [negb]. unfold stop_typing, socket_to.
  rewrite Hroom.
  rewrite !(recipients_transport st (set_messageCounts mc st)) by done.
  rewrite (room_recipients n st HI a r b Ha Hp). simpl.
  eexists. split; [reflexivity|]. done.
Qed.

Lemma serve_sent_refused (t : Z) (data : SendData) :
  (checkMessageRateLimit t a (messageCounts st)).1 = false →
  App.serve t a [App.send_message_req data; App.stop_typing_req (JStr r)] st
  = (st, [(a, rate_limit_exceeded too_fast); (b, stop_typing_out)]).
Proof using HI Ha Hp.
  intros Hno. unfold App.serve. simpl. unfold step. simpl.
  unfold send_message.
  assert (Hmc : (checkMessageRateLimit t a (messageCounts st)).2
                = messageCounts st).
  { revert Hno. unfold checkMessageRateLimit.
    destruct (messageCounts st !! a) as [rec|]; [|done].
    destruct (t >? resetTime rec); [done|].
    destruct (count rec >=? MESSAGE_RATE_LIMIT); done. }
  destruct (checkMessageRateLimit t a (messageCounts st)) as [ok mc].
  simpl in Hno, Hmc. subst ok mc. cbn [negb].
  rewrite set_messageCounts_same. unfold stop_typing, socket_to.
  by rewrite (room_recipients n st HI a r b Ha Hp).
Qed.

Lemma serve_edit (t : Z) (i txt : JsVal) :
  App.serve t a [App.edit_message_req (JStr r) i txt] st
  = (st, [(b, message_edited i txt)]).
Proof using HI Ha Hp.
  unfold App.serve. simpl. unfold step. simpl.
  unfold edit_message, socket_to.
  by rewrite (room_recipients n st HI a r b Ha Hp).
Qed.

Lemma serve_delete (t : Z) (i : JsVal) :
  App.serve t a [App.delete_message_req (JStr r) i] st
  = (st, [(b, message_deleted i)]).
Proof using HI Ha Hp.
  unfold App.serve. simpl. unfold step. simpl.
  unfold delete_message, socket_to.
  by rewrite (room_recipients n st HI a r b Ha Hp).
Qed.
End conversation.

Lemma serve_ok (n : nat) (t : Z) (a : jsstr) (requests : list App.Request)
    (st : State) :
  a ∈ sockets st →
  run_ok n st (List.map (λ r, mkInput t a (App.arrive t r)) requests) = true.
Proof.
  revert st. induction requests as [|r requests IH]; intros st Hs; [done|].
  simpl. apply andb_true_iff. split.
  - unfold event_ok. simpl. destruct r; simpl; by apply bool_decide_eq_true.
  - apply IH. rewrite step_sockets. simpl. by destruct r.
Qed.

Lemma serve_reachable (n : nat) (t : Z) (a : jsstr)
    (requests : list App.Request) (st : State) :
  reachable n st → a ∈ sockets st →
  reachable n (App.serve t a requests st).1.
Proof.
  intros Hr Hs. apply reachable_run; [done|]. by apply serve_ok.
Qed.

(** X13: while two sockets are paired and the sender's client holds
    their room, what the sender does to the conversation arrives: after
    a message the limiter lets through, an edit or a delete, the two
    clients show the same ids, texts and edited and deleted marks as
    before they showed the same, and the pair is still a pair. *)
Theorem conversation_in_sync (n : nat) (now t : Z) (a b r : jsstr)
    (action : Action) (st st1 : State) (ca cb ca1 cb1 : App.state) :
  reachable n st →
  mget a (activeRooms st) = Some r → partnerOf st a = Some b →
  App.roomId ca = JStr r →
  now ≠ 0 →
  (action = Send → (checkMessageRateLimit t a (messageCounts st)).1 = true) →
  List.map App.shown (App.messages ca) = List.map App.shown (App.messages cb) →
  exchange now t a b action st ca cb = (st1, ca1, cb1) →
  List.map App.shown (App.messages ca1) = List.map App.shown (App.messages cb1)
  ∧ App.roomId ca1 = JStr r
  ∧ reachable n st1
  ∧ mget a (activeRooms st1) = Some r
  ∧ partnerOf st1 a = Some b.
Proof.
  intros Hreach Ha Hp Hroom Hnow Hok Hsync.
  pose proof (reachable_Inv n st Hreach) as HI.
  destruct (paired_facts n st a b r HI Ha Hp) as (Hne & Hs & Ht).
  assert (Hba : bool_decide (b = a) = false)
    by (apply bool_decide_eq_false; congruence).
  assert (Hbb : bool_decide (b = b) = true) by (by apply bool_decide_eq_true).
  unfold exchange.
  destruct (act now action ca) as [ca' requests] eqn:Hact.
  pose proof (serve_reachable n t a requests st Hreach Hs) as Hreach1.
  destruct action as [|i|i]; simpl in Hact.
  - unfold App.handleSendMessage in Hact. rewrite Hroom, Ht in Hact.
    destruct (truthy (JStr (trim (App.message ca))) || App.isRecording ca);
      cbn [andb] in Hact; injection Hact as <- <-.
    + destruct (serve_sent n st a b r HI Ha Hp t
                  {| sm_roomId := JStr r; sm_text := JStr (App.message ca);
                     sm_sender := JStr (js "user"); sm_type := JStr (js "text");
                     sm_fileContent := JUndefined; sm_fileType := JUndefined;
                     sm_id := JNum now; sm_replyTo := App.replyingTo ca;
                     sm_encrypted := JUndefined |})
        as (st' & Hserve & _ & _ & _ & Hreg); [done | by apply Hok |].
      rewrite Hserve in Hreach1 |- *. intros [= <- <- <-].
      unfold App.deliver. cbn [fold_left fst snd]. rewrite Hba, Hbb.
      cbn [App.on App.on_receive_message App.messages App.setMessages
           App.setIsPartnerTyping App.setMessage App.setReplyingTo App.roomId].
      split.
      * rewrite !map_app, Hsync. f_equal. unfold App.shown, App.received, relayed.
        cbn. unfold js_or. cbn. destruct (Z.eqb_spec now 0); done.
      * rewrite Hreg, (partnerOf_registry st st' a Hreg). done.
    + unfold App.serve. simpl. intros [= <- <- <-]. done.
  - unfold App.submitEdit in Hact. rewrite Hroom, Ht in Hact.
    injection Hact as <- <-.
    rewrite (serve_edit n st a b r HI Ha Hp) in Hreach1 |- *.
    intros [= <- <- <-].
    unfold App.deliver. cbn [fold_left fst snd]. rewrite Hba, Hbb.
    cbn [App.on App.on_message_edited App.messages App.setMessages
         App.setEditText App.setEditingMessageId App.roomId].
    split; [by apply edited_shown|done].
  - unfold App.handleDelete in Hact. rewrite Hroom, Ht in Hact.
    injection Hact as <- <-.
    rewrite (serve_delete n st a b r HI Ha Hp) in Hreach1 |- *.
    intros [= <- <- <-].
    unfold App.deliver. cbn [fold_left fst snd]. rewrite Hba, Hbb.
    cbn [App.on App.on_message_deleted App.messages App.setMessages App.roomId].
    split; [by apply deleted_shown|done].
Qed.

Lemma conversation_in_sync_witness :
  List.map App.shown
    (App.messages
       (exchange 5 3 sockA sockB Send (run init two_paired).1
          (client_in (roomName sockB sockA) "hi")
          (client_in (roomName sockB sockA) "")).1.2)
  = List.map App.shown
      (App.messages
         (exchange 5 3 sockA sockB Send (run init two_paired).1
            (client_in (roomName sockB sockA) "hi")
            (client_in (roomName sockB sockA) "")).2).
Proof.
  destruct (exchange 5 3 sockA sockB Send (run init two_paired).1
              (client_in (roomName sockB sockA) "hi")
              (client_in (roomName sockB sockA) "")) as [[st1 ca1] cb1] eqn:E.
  destruct (conversation_in_sync 1 5 3 sockA sockB (roomName sockB sockA) Send
              (run init two_paired).1 st1
              (client_in (roomName sockB sockA) "hi")
              (client_in (roomName sockB sockA) "") ca1 cb1
              two_paired_reachable) as [H _];
    [vm_compute; reflexivity | vm_compute; reflexivity | reflexivity | done
    | intros _; vm_compute; reflexivity | reflexivity | exact E | exact H].
Defined.

(** X14: when the limiter refuses a message, the server tells the
    sender's socket, but the client has no handler for that: the
    sender's client keeps the message it has already put in its list, in
    the state [handleSendMessage] left, and the partner's list does not
    change. *)
Theorem refused_message_stays (n : nat) (now t : Z) (a b r : jsstr)
    (st st1 : State) (ca cb ca1 cb1 : App.state) :
  reachable n st →
  mget a (activeRooms st) = Some r → partnerOf st a = Some b →
  App.roomId ca = JStr r →
  trim (App.message ca) ≠ [] →
  (checkMessageRateLimit t a (messageCounts st)).1 = false →
  exchange now t a b Send st ca cb = (st1, ca1, cb1) →
  st1 = st
  ∧ App.messages cb1 = App.messages cb
  ∧ ca1 = (App.handleSendMessage now ca).1
  ∧ ∃ mine, App.messages ca1 = App.messages ca ++ [mine]
            ∧ App.id mine = JNum now
            ∧ App.text mine = JStr (App.message ca).
Proof.
  intros Hreach Ha Hp Hroom Htyped Hno.
  pose proof (reachable_Inv n st Hreach) as HI.
  destruct (paired_facts n st a b r HI Ha Hp) as (Hne & Hs & Ht).
  assert (Hba : bool_decide (b = a) = false)
    by (apply bool_decide_eq_false; congruence).
  assert (Haa : bool_decide (a = a) = true) by (by apply bool_decide_eq_true).
  assert (Hbb : bool_decide (b = b) = true) by (by apply bool_decide_eq_true).
  unfold exchange, act, App.handleSendMessage. rewrite Hroom, Ht.
  destruct (trim (App.message ca)) as [|c s] eqn:Etrim; [done|].
  cbn [truthy orb andb].
  rewrite (serve_sent_refused n st a b r HI Ha Hp t) by done.
  assert (Hab : bool_decide (a = b) = false)
    by (by apply bool_decide_eq_false).
  intros [= <- <- <-]. split; [done|].
  unfold App.deliver. cbn [fold_left fst snd]. rewrite Haa, Hba, Hab, Hbb.
  split; [done|]. split; [done|].
  eexists. split; [reflexivity|]. done.
Qed.

Lemma refused_message_stays_witness :
  App.messages
    (exchange 5 3 sockA sockB Send (run init ten_sent).1
       (client_in (roomName sockB sockA) "hi")
       (client_in (roomName sockB sockA) "")).2
  = [].
Proof.
  destruct (exchange 5 3 sockA sockB Send (run init ten_sent).1
              (client_in (roomName sockB sockA) "hi")
              (client_in (roomName sockB sockA) "")) as [[st1 ca1] cb1] eqn:E.
  assert (Hr : reachable 1 (run init ten_sent).1).
  { exists ten_sent. split; [vm_compute|]; reflexivity. }
  destruct (refused_message_stays 1 5 3 sockA sockB (roomName sockB sockA)
              (run init ten_sent).1 st1
              (client_in (roomName sockB sockA) "hi")
              (client_in (roomName sockB sockA) "") ca1 cb1 Hr)
    as (_ & H & _);
    [vm_compute; reflexivity | vm_compute; reflexivity | reflexivity
    | vm_compute; discriminate | vm_compute; reflexivity | exact E | exact H].
Defined.

(** ** Quitting *)

Lemma skip_served (n : nat) (st : State) (a b r : jsstr) (t : Z) :
  Inv n st → mget a (activeRooms st) = Some r → partnerOf st a = Some b →
  ∃ st', App.serve t a [App.skip_req] st = (st', [(b, partner_disconnected)])
         ∧ members (rooms st') r = [b] ∧ sockets st' = sockets st.
Proof.
  intros HI Ha Hp.
  destruct (paired_partner n st HI a r Ha)
    as (b' & Hf & Hp' & Hne & _ & _ & _ & Ht & _).
  assert (b' = b) as -> by congruence.
  unfold App.serve. simpl. unfold step. simpl.
  rewrite (skip_paired a r b) by done. unfold socket_to.
  rewrite (room_recipients n st HI a r b Ha Hp). simpl.
  eexists. split; [reflexivity|]. simpl. split; [|done].
  rewrite members_leave, decide_True by done.
  by apply (room_others n st a r b).
Qed.

Lemma alone_in_room (st : State) (b r : jsstr) :
  members (rooms st) r = [b] →
  recipients st (to_targets (JStr r)) [b] = [].
Proof.
  intros Hm. unfold recipients, to_targets. cbn [flat_map members_of].
  rewrite Hm. cbn [app collect].
  rewrite (bool_decide_eq_false_2 (b ∈ [])) by apply not_elem_of_nil.
  by rewrite bool_decide_eq_true_2 by left.
Qed.

(** X15: when one side quits, its client forgets the room and from then
    on emits nothing for sending, editing or deleting; the other side is
    told that the partner has disconnected, but its client keeps the
    room: a message typed there is still put in the list and sent, and
    the server delivers it to nobody. *)
Theorem quit_leaves_partner_sending (n : nat) (now t now2 t2 : Z)
    (a b r : jsstr) (st : State) (ca cb : App.state) :
  reachable n st →
  mget a (activeRooms st) = Some r → partnerOf st a = Some b →
  App.roomId cb = JStr r → trim (App.message cb) ≠ [] →
  let quit := App.handleQuit now ca in
  let served := App.serve t a quit.2 st in
  let cb1 := App.deliver t b served.2 cb in
  let sent := App.handleSendMessage now2 cb1 in
  let served2 := App.serve t2 b sent.2 served.1 in
  App.roomId quit.1 = JNull
  ∧ (∀ now3 i, (App.handleSendMessage now3 quit.1).2 = []
               ∧ (App.submitEdit i quit.1).2 = []
               ∧ (App.handleDelete i quit.1).2 = [])
  ∧ served.2 = [(b, partner_disconnected)]
  ∧ App.roomId cb1 = JStr r
  ∧ App.isChatActive cb1 = false
  ∧ length (App.messages sent.1) = S (length (App.messages cb1))
  ∧ (served2.2 = [] ∨ served2.2 = [(b, rate_limit_exceeded too_fast)]).
Proof.
  intros Hreach Ha Hp Hroom Htyped quit served cb1 sent served2.
  pose proof (reachable_Inv n st Hreach) as HI.
  destruct (paired_facts n st a b r HI Ha Hp) as (Hne & Hs & Ht).
  destruct (skip_served n st a b r t HI Ha Hp) as (st' & Hserved & Hm & Hso).
  assert (Hbb : bool_decide (b = b) = true) by (by apply bool_decide_eq_true).
  split; [done|]. split.
  { intros now3 i. unfold App.handleSendMessage, App.submitEdit, App.handleDelete.
    simpl. by rewrite andb_false_r. }
  assert (Hs2 : served = (st', [(b, partner_disconnected)])) by exact Hserved.
  assert (Hcb1 : cb1 = App.on_partner_disconnected t cb).
  { unfold cb1. rewrite Hs2. unfold App.deliver. cbn [fold_left snd fst].
    by rewrite Hbb. }
  split; [by rewrite Hs2|]. split; [by rewrite Hcb1|].
  split; [by rewrite Hcb1|].
  assert (Hsent : sent
    = (App.setReplyingTo JNull
         (App.setMessage []
            (App.setMessages
               (App.messages cb1
                ++ [{| App.id := JNum now2; App.text := JStr (App.message cb);
                       App.sender := JStr (js "user");
                       App.type := JStr (js "text");
                       App.fileContent := JUndefined;
                       App.fileType := JUndefined;
                       App.isEdited := JUndefined;
                       App.isDeleted := JUndefined;
                       App.replyTo := js_or (App.replyingTo cb) JUndefined;
                       App.encrypted := JUndefined |}]) cb1)),
       [App.send_message_req
          {| sm_roomId := JStr r; sm_text := JStr (App.message cb);
             sm_sender := JStr (js "user"); sm_type := JStr (js "text");
             sm_fileContent := JUndefined; sm_fileType := JUndefined;
             sm_id := JNum now2; sm_replyTo := App.replyingTo cb;
             sm_encrypted := JUndefined |};
        App.stop_typing_req (JStr r)])).
  { unfold sent, App.handleSendMessage. rewrite Hcb1. simpl.
    rewrite Hroom, Ht.
    destruct (trim (App.message cb)) as [|c s]; [done|]. reflexivity. }
  split.
  { rewrite Hsent. simpl. rewrite length_app. simpl. lia. }
  unfold served2. rewrite Hsent, Hs2. cbn [fst snd].
  unfold App.serve. simpl. unfold step. simpl. unfold send_message.
  destruct (checkMessageRateLimit t2 b (messageCounts st')) as [[|] mc];
    cbn [negb]; unfold stop_typing, socket_to, socket_emit;
    cbn [snd sm_roomId].
  - left.
    rewrite !(recipients_transport st' (set_messageCounts mc st')) by done.
    rewrite (alone_in_room st' b r Hm). reflexivity.
  - right.
    rewrite !(recipients_transport st' (set_messageCounts mc st')) by done.
    rewrite (alone_in_room st' b r Hm). reflexivity.
Qed.

Lemma quit_leaves_partner_sending_witness :
  (App.serve 9 sockB
     (App.handleSendMessage 8
        (App.deliver 7 sockB
           (App.serve 7 sockA
              (App.handleQuit 6 (client_in (roomName sockB sockA) "")).2
              (run init two_paired).1).2
           (client_in (roomName sockB sockA) "still there?"))).2
     (App.serve 7 sockA
        (App.handleQuit 6 (client_in (roomName sockB sockA) "")).2
        (run init two_paired).1).1).2
  = [].
Proof.
  destruct (quit_leaves_partner_sending 1 6 7 8 9 sockA sockB
              (roomName sockB sockA) (run init two_paired).1
              (client_in (roomName sockB sockA) "")
              (client_in (roomName sockB sockA) "still there?")
              two_paired_reachable)
    as (_ & _ & _ & _ & _ & _ & [H|H]);
    [vm_compute; reflexivity | vm_compute; reflexivity | reflexivity
    | vm_compute; discriminate | exact H |].
  vm_compute in H. discriminate H.
Defined.
